(** * Formwerk: form-level flags, checkbox and radio group coordination

    A shallow embedding of the composables of [packages/core]:
    [useRadioGroup], [useCheckbox], [useCheckboxGroup] and [useForm].
    Reactive refs become fields of explicit state records, computed values
    become functions of the state, DOM attribute objects become finite maps
    from attribute names to attribute values, and handlers become state
    transformers. *)

From stdpp Require Import gmap strings list fin_maps.
From Stdlib Require Import ZArith.

Local Open Scope Z_scope.

(** ** JavaScript values and operators used by the composables *)
Module Js.

(** Runtime values that travel through field values and props: the
    primitives, and references to objects or arrays, which [===] compares
    by identity.  Numbers are the integers and [NaN]. *)
Inductive JsValue : Type :=
| JUndefined
| JNull
| JBool (b : bool)
| JNum (n : Z)
| JNaN
| JStr (s : string)
| JObj (ref : nat).

#[global] Instance JsValue_eq_dec : EqDecision JsValue.
Proof. solve_decision. Defined.

(** [a === b]: [NaN] equals nothing, itself included. *)
Definition strictEquals (a b : JsValue) : bool :=
  match a, b with
  | JNaN, _ | _, JNaN => false
  | _, _ => bool_decide (a = b)
  end.

(** [a ?? b] *)
Definition nullish (a b : JsValue) : JsValue :=
  match a with
  | JUndefined | JNull => b
  | _ => a
  end.

(** [force ?? d] for an optional boolean argument. *)
Definition nullishBool (force : option bool) (d : bool) : bool :=
  match force with
  | Some b => b
  | None => d
  end.

(** Truthiness of an optional boolean and of an optional string. *)
Definition truthyBool (b : option bool) : bool :=
  match b with
  | Some true => true
  | _ => false
  end.

Definition truthyString (s : option string) : bool :=
  match s with
  | Some s => negb (bool_decide (s = ""%string))
  | None => false
  end.

(** [arr[i]] for an integer index: [undefined] out of range. *)
Definition arrayAt {A} (arr : list A) (i : Z) : option A :=
  if i <? 0 then None else arr !! Z.to_nat i.

(** [arr.findIndex(p)]: the first index whose element satisfies [p],
    [-1] when there is none. *)
Definition findIndex {A} (p : A → bool) (arr : list A) : Z :=
  match list_find (λ x, p x = true) arr with
  | Some (i, _) => Z.of_nat i
  | None => -1
  end.

(** [arr.includes(x)] *)
Definition includes `{EqDecision A} (arr : list A) (x : A) : bool :=
  bool_decide (x ∈ arr).

(** Values of DOM attribute bindings. *)
Inductive AttrValue : Type :=
| AUndefined
| ABool (b : bool)
| AStr (s : string)
| AHandler (name : string)
| ARef.

#[global] Instance AttrValue_eq_dec : EqDecision AttrValue.
Proof. solve_decision. Defined.

Definition optStr (s : option string) : AttrValue :=
  match s with
  | Some s => AStr s
  | None => AUndefined
  end.

(** [b || undefined] *)
Definition orUndefined (b : bool) : AttrValue :=
  if b then ABool true else AUndefined.

(** The result of [useLabel]: an object of type [AriaLabelableProps],
    whose only possible keys are the two below. *)
Record AriaLabelableProps : Type := {
  aria_label : option string;
  aria_labelledby : option string
}.

Definition labelEntries (l : AriaLabelableProps) : gmap string AttrValue :=
  let m : gmap string AttrValue := ∅ in
  let m := match aria_label l with
           | Some s => <["aria-label"%string := AStr s]> m
           | None => m
           end in
  match aria_labelledby l with
  | Some s => <["aria-labelledby"%string := AStr s]> m
  | None => m
  end.

(** A prop after [normalizeProps] is absent from the props object ([None])
    or is a ref or getter holding the current value; [toValue] reads it. *)
Definition toValueBool (p : option (option bool)) : option bool :=
  match p with
  | Some v => v
  | None => None
  end.

Definition toValue (p : option JsValue) : JsValue :=
  match p with
  | Some v => v
  | None => JUndefined
  end.

(** Modelled from the spec: [isEqual] of [utils/common] is not among the
    sources.  It is the deep equality of two values; on the immutable
    values of the model that is their equality. *)
Definition isEqual `{EqDecision A} (a b : A) : bool := bool_decide (a = b).

(** Modelled from the spec: [cloneDeep] of [utils/common] is not among the
    sources.  A deep copy of an immutable value is the value. *)
Definition cloneDeep {A} (a : A) : A := a.

End Js.
Import Js.

(** ** useRadioGroup *)
Module RadioGroup.

Inductive Direction : Type := Ltr | Rtl.

(** [getOrientationArrows] *)
Record Arrows : Type := { prev : list string; next : list string }.

Definition getOrientationArrows (dir : option Direction) : Arrows :=
  let nextKeys := ["ArrowDown"%string] in
  let prevKeys := ["ArrowUp"%string] in
  match dir with
  | Some Rtl =>
      {| prev := prevKeys ++ ["ArrowRight"%string];
         next := nextKeys ++ ["ArrowLeft"%string] |}
  | _ =>
      {| prev := prevKeys ++ ["ArrowLeft"%string];
         next := nextKeys ++ ["ArrowRight"%string] |}
  end.

(** Modelled from the spec: [getNextCycleArrIdx] of [utils/common] is not
    among the sources.  The roving selection cycles: an index past the last
    element goes back to the first, an index before the first goes to the
    last, any other index is kept. *)
Definition getNextCycleArrIdx {A} (idx : Z) (arr : list A) : Z :=
  let nextIdx := if idx <? 0 then Z.of_nat (length arr) - 1 else idx in
  if Z.of_nat (length arr) <=? nextIdx then 0 else nextIdx.

(** The keyboard event as the handler uses it. *)
Record KeyboardEvent : Type := { key : string; defaultPrevented : bool }.

Definition preventDefault (e : KeyboardEvent) : KeyboardEvent :=
  {| key := key e; defaultPrevented := true |}.

Section Group.
(** The reactive state the registered radios read and write. *)
Context {St : Type}.

(** [RadioItemContext]: what a radio hands to its group. *)
Record RadioItemContext : Type := {
  isChecked : St → bool;
  isDisabled : St → bool;
  setChecked : St → St * bool
}.

(** [radio?.setChecked()] as a statement: the returned flag is dropped. *)
Definition callSetChecked (radio : option RadioItemContext) (s : St) : St :=
  match radio with
  | Some r => fst (setChecked r s)
  | None => s
  end.

Definition registerRadio (radios : list RadioItemContext)
    (radio : RadioItemContext) : list RadioItemContext :=
  radios ++ [radio].

Definition handleArrowNext (radios : list RadioItemContext) (s : St) : St :=
  let currentIdx := findIndex (λ radio, isChecked radio s) radios in
  if currentIdx <? 0 then callSetChecked (arrayAt radios 0) s
  else
    let availableCandidates :=
      List.filter (λ radio, negb (isDisabled radio s)) radios in
    let nextCandidate :=
      arrayAt availableCandidates
        (getNextCycleArrIdx (currentIdx + 1) availableCandidates) in
    callSetChecked nextCandidate s.

Definition handleArrowPrevious (radios : list RadioItemContext) (s : St) : St :=
  let currentIdx := findIndex (λ radio, isChecked radio s) radios in
  if currentIdx =? -1 then callSetChecked (arrayAt radios 0) s
  else
    let availableCandidates :=
      List.filter (λ radio, negb (isDisabled radio s)) radios in
    let prevCandidate :=
      arrayAt availableCandidates
        (getNextCycleArrIdx (currentIdx - 1) availableCandidates) in
    callSetChecked prevCandidate s.

(** [radioGroupProps.onKeydown] *)
Definition onKeydown (dir : option Direction) (radios : list RadioItemContext)
    (e : KeyboardEvent) (s : St) : KeyboardEvent * St :=
  let arrows := getOrientationArrows dir in
  if includes (next arrows) (key e) then
    (preventDefault e, handleArrowNext radios s)
  else if includes (prev arrows) (key e) then
    (preventDefault e, handleArrowPrevious radios s)
  else (e, s).

(** The radio the claim of the roving selection names, following the words
    of the specification and not the handlers: the first radio that is not
    disabled among those after position [i], then, cycling, among those up
    to position [i]. *)
Definition nextEnabledAfter (radios : list RadioItemContext) (s : St)
    (i : nat) : option RadioItemContext :=
  List.find (λ radio, negb (isDisabled radio s))
    (drop (S i) radios ++ take (S i) radios).

Definition prevEnabledBefore (radios : list RadioItemContext) (s : St)
    (i : nat) : option RadioItemContext :=
  List.find (λ radio, negb (isDisabled radio s))
    (reverse (take i radios) ++ reverse (drop i radios)).
End Group.

Arguments RadioItemContext : clear implicits.

(** The props of the group that [radioGroupProps] reads, after [toValue],
    with the results of the helper composables it calls. *)
Record GroupView : Type := {
  dir : option Direction;
  labelledByProps : AriaLabelableProps;
  (** [errorMessage.value] of [useInputValidity] *)
  errorMessage : option string;
  (** what [describedBy()] of [createDescribedByProps] returns for the group
      id, the error message and the description *)
  describedBy : option string
}.

(** [toValue(props.dir) ?? 'ltr'] *)
Definition dirAttr (d : option Direction) : AttrValue :=
  match d with
  | Some Rtl => AStr "rtl"
  | _ => AStr "ltr"
  end.

(** [radioGroupProps]: the object literal, keys in source order, a later
    key replacing an earlier one. *)
Definition radioGroupProps (v : GroupView) : gmap string AttrValue :=
  <["onKeydown"%string := AHandler "onKeydown"]>
  (<["aria-invalid"%string :=
       if truthyString (errorMessage v) then ABool true else AUndefined]>
  (<["aria-describedby"%string := optStr (describedBy v)]>
  (<["role"%string := AStr "radiogroup"]>
  (<["dir"%string := dirAttr (dir v)]>
  (labelEntries (labelledByProps v)))))).

(** A radio in the manner of [useRadio], for concrete groups: the state is
    the value the group holds, a radio is checked when the group holds its
    value and checking it stores its value. *)
Definition radioItem (value : nat) (disabled : bool)
    : RadioItemContext (option nat) :=
  {| isChecked := λ s, bool_decide (s = Some value);
     isDisabled := λ _, disabled;
     setChecked := λ _, (Some value, true) |}.

(** The keys the handler of the group reacts to. *)
Definition arrowKeys : list string :=
  ["ArrowDown"; "ArrowUp"; "ArrowLeft"; "ArrowRight"]%string.

(** *** Registration

    The array [radios] holds objects, and [indexOf] and [===] compare them
    by identity.  A registered radio is kept with the reference that stands
    for its identity; the handlers read the contexts. *)
Record RadioObject (St : Type) : Type := {
  ref : nat;
  context : RadioItemContext St
}.

Arguments ref {St}.
Arguments context {St}.

Section Registration.
Context {St : Type}.

(** [radios.indexOf(radio)] *)
Definition indexOf (radios : list (RadioObject St)) (radio : RadioObject St) : Z :=
  findIndex (λ r, bool_decide (ref r = ref radio)) radios.

Definition unregisterRadio (radios : list (RadioObject St))
    (radio : RadioObject St) : list (RadioObject St) :=
  let idx := indexOf radios radio in
  if 0 <=? idx then delete (Z.to_nat idx) radios else radios.

(** [useRadioRegistration]: the radio is pushed, and the callback it
    returns reads the array and whether the value of the group is empty
    ([isEmpty] of [utils/common], whose result is an argument here). *)
Definition useRadioRegistration (radios : list (RadioObject St))
    (radio : RadioObject St) : list (RadioObject St) :=
  radios ++ [radio].

Definition canReceiveFocus (radios : list (RadioObject St))
    (radio : RadioObject St) (valueIsEmpty : bool) : bool :=
  match arrayAt radios 0 with
  | Some first => bool_decide (ref first = ref radio) && valueIsEmpty
  | None => false
  end.

(** The contexts the arrow handlers walk over. *)
Definition contexts (radios : list (RadioObject St))
    : list (RadioItemContext St) :=
  context <$> radios.
End Registration.

End RadioGroup.

(** ** useCheckboxGroup *)
Module CheckboxGroup.

Inductive CheckboxGroupState : Type := Checked | Unchecked | Mixed.

(** [CheckboxRegistration], as far as the group reads it: the id, and
    whether [getElem()] is an input element. *)
Record CheckboxRegistration : Type := {
  id : string;
  elemIsInput : bool
}.

Section Group.
Context {TCheckbox : Type} `{EqDecision TCheckbox}.

(** Modelled from the spec: [toggleValueSelection] of [utils/common] is not
    among the sources.  Without [force] it adds the value to the array when
    no element deep-equal to it is present and removes it when one is
    present; [force] chooses between the two instead of the presence. *)
Definition toggleValueSelection (current : list TCheckbox) (value : TCheckbox)
    (force : option bool) : list TCheckbox :=
  let present := existsb (λ v, isEqual v value) current in
  let shouldAdd := nullishBool force (negb present) in
  if shouldAdd then (if present then current else current ++ [value])
  else List.filter (λ v, negb (isEqual v value)) current.

(** Modelled from the spec: [removeFirst] of [utils/common] is not among
    the sources.  It drops the first element that satisfies the predicate. *)
Fixpoint removeFirst {A} (p : A → bool) (arr : list A) : list A :=
  match arr with
  | [] => []
  | x :: rest => if p x then rest else x :: removeFirst p rest
  end.

(** The refs of the group: the field value of its form field, the
    registered checkboxes, and how often [updateValidity] ran. *)
Record State : Type := {
  fieldValue : option (list TCheckbox);
  checkboxes : list CheckboxRegistration;
  validityUpdates : nat
}.

(** Modelled from the spec: [setValue] of [useFormField] is not among the
    sources.  It stores the value as the field value. *)
Definition setValue (v : list TCheckbox) (st : State) : State :=
  {| fieldValue := Some v;
     checkboxes := checkboxes st;
     validityUpdates := validityUpdates st |}.

(** Modelled from the spec: [updateValidity] of [useInputValidity] is not
    among the sources.  It leaves the value and the registrations alone. *)
Definition updateValidity (st : State) : State :=
  {| fieldValue := fieldValue st;
     checkboxes := checkboxes st;
     validityUpdates := S (validityUpdates st) |}.

Definition useCheckboxRegistration (checkbox : CheckboxRegistration)
    (st : State) : State :=
  {| fieldValue := fieldValue st;
     checkboxes := checkboxes st ++ [checkbox];
     validityUpdates := validityUpdates st |}.

(** The [onBeforeUnmount] callback of a registration. *)
Definition unregister (checkbox : CheckboxRegistration) (st : State) : State :=
  {| fieldValue := fieldValue st;
     checkboxes :=
       removeFirst (λ reg, bool_decide (id reg = id checkbox)) (checkboxes st);
     validityUpdates := validityUpdates st |}.

Definition toggleValue (value : TCheckbox) (force : option bool)
    (st : State) : State :=
  let nextValue :=
    toggleValueSelection (default [] (fieldValue st)) value force in
  let st := setValue nextValue st in
  if existsb (λ c, negb (elemIsInput c)) (checkboxes st)
  then updateValidity st
  else st.

Definition hasValue (value : TCheckbox) (st : State) : bool :=
  existsb (λ v, isEqual v value) (default [] (fieldValue st)).

Definition groupState (st : State) : CheckboxGroupState :=
  match fieldValue st with
  | None => Unchecked
  | Some fv =>
      if (length fv =? 0)%nat then Unchecked
      else if (0 <? length fv)%nat && (length fv <? length (checkboxes st))%nat
      then Mixed
      else Checked
  end.
End Group.

Arguments State : clear implicits.

(** [toValue(props.dir) ?? direction.value] *)
Definition dirOrLocale (dir : option RadioGroup.Direction)
    (direction : RadioGroup.Direction) : AttrValue :=
  match default direction dir with
  | RadioGroup.Rtl => AStr "rtl"
  | RadioGroup.Ltr => AStr "ltr"
  end.

(** [groupProps]: three spreads, the label props and the objects that
    [createDescribedByProps] and [createAccessibleErrorMessageProps] return
    (neither is among the sources, so they are any objects), then [dir] and
    [role]. *)
Definition groupProps (labelledByProps : AriaLabelableProps)
    (describedByProps accessibleErrorProps : gmap string AttrValue)
    (dir : option RadioGroup.Direction) (direction : RadioGroup.Direction)
    : gmap string AttrValue :=
  <["role"%string := AStr "group"]>
  (<["dir"%string := dirOrLocale dir direction]>
  (accessibleErrorProps ∪ (describedByProps ∪ labelEntries labelledByProps))).

End CheckboxGroup.

(** ** useCheckbox *)
Module Checkbox.

(** [CheckboxProps] after [normalizeProps]. *)
Record CheckboxProps : Type := {
  disabled : option (option bool);
  trueValue : option JsValue;
  falseValue : option JsValue;
  indeterminate : option (option bool)
}.

(** [CheckboxGroupContext], as far as a checkbox calls it, over the state
    [G] of the group that provides it. *)
Record CheckboxGroupContext (G : Type) : Type := {
  ctxDisabled : G → bool;
  ctxReadonly : G → bool;
  ctxRequired : G → bool;
  ctxModelValue : G → option (list JsValue);
  ctxHasValue : G → JsValue → bool;
  ctxToggleValue : G → JsValue → option bool → G
}.

Arguments ctxDisabled {G}.
Arguments ctxReadonly {G}.
Arguments ctxRequired {G}.
Arguments ctxModelValue {G}.
Arguments ctxHasValue {G}.
Arguments ctxToggleValue {G}.

(** What [fieldValue.value] reads: the checkbox's own value, or, for a
    grouped checkbox, the model value of the group cast to the value type. *)
Inductive FieldValue : Type :=
| Own (v : JsValue)
| GroupModel (vs : option (list JsValue)).

(** The [click] and [keydown] events as the handlers use them. *)
Record DomEvent : Type := {
  code : string;
  defaultPrevented : bool;
  propagationStopped : bool
}.

Definition preventDefault (e : DomEvent) : DomEvent :=
  {| code := code e; defaultPrevented := true;
     propagationStopped := propagationStopped e |}.

Definition stopPropagation (e : DomEvent) : DomEvent :=
  {| code := code e; defaultPrevented := defaultPrevented e;
     propagationStopped := true |}.

(** Modelled from the spec: [withRefCapture] of [utils/common] is not among
    the sources.  It returns the bindings it is given, with the capture of
    the element added under [ref]. *)
Definition withRefCapture (props : gmap string AttrValue)
    : gmap string AttrValue :=
  <["ref"%string := ARef]> props.

Section Checkbox.
Context {G : Type}.
(** [inject(CheckboxGroupKey, null)] *)
Context (group : option (CheckboxGroupContext G)).
Context (props : CheckboxProps).
(** [uniqId()] and the result of [useLabel]. *)
Context (inputId : string) (labelledByProps : AriaLabelableProps).

(** The state a checkbox reads and writes: the state of its group when it
    has one, and the ref of [useFieldValue] otherwise. *)
Record State : Type := {
  groupSt : G;
  fieldRef : JsValue
}.

Definition getTrueValue : JsValue := nullish (toValue (trueValue props)) (JBool true).
Definition getFalseValue : JsValue := nullish (toValue (falseValue props)) (JBool false).

(** The getter and the setter of [fieldValue]. *)
Definition fieldValue (st : State) : FieldValue :=
  match group with
  | Some g => GroupModel (ctxModelValue g (groupSt st))
  | None => Own (fieldRef st)
  end.

Definition setFieldValue (v : JsValue) (st : State) : State :=
  match group with
  | Some g =>
      {| groupSt := ctxToggleValue g (groupSt st) getTrueValue None;
         fieldRef := fieldRef st |}
  | None => {| groupSt := groupSt st; fieldRef := v |}
  end.

(** The getter of [checked]. *)
Definition checked (st : State) : bool :=
  match group with
  | Some g => ctxHasValue g (groupSt st) getTrueValue
  | None => strictEquals (fieldRef st) getTrueValue
  end.

Definition setChecked (force : option bool) (st : State) : State :=
  if truthyBool (toValueBool (indeterminate props)) then st
  else
    match group with
    | Some g =>
        {| groupSt := ctxToggleValue g (groupSt st) getTrueValue force;
           fieldRef := fieldRef st |}
    | None => st
    end.

Definition toggleValue (force : option bool) (st : State) : State :=
  if truthyBool (toValueBool (indeterminate props)) then st
  else
    let shouldTrue := nullishBool force (negb (checked st)) in
    setFieldValue (if shouldTrue then getTrueValue else getFalseValue) st.

(** The handlers of [createHandlers]. *)
Definition onClick (isInput : bool) (e : DomEvent) (st : State)
    : DomEvent * State :=
  if truthyBool (toValueBool (disabled props))
     || truthyBool (toValueBool (indeterminate props))
  then (if isInput then preventDefault (stopPropagation e) else e, st)
  else (e, toggleValue None st).

Definition onKeydown (e : DomEvent) (st : State) : DomEvent * State :=
  if truthyBool (toValueBool (disabled props)) then (e, st)
  else if bool_decide (code e = "Space"%string)
  then (preventDefault e, toggleValue None st)
  else (e, st).

Definition createHandlers (isInput : bool) : gmap string AttrValue :=
  let baseHandlers : gmap string AttrValue :=
    <["onKeydown"%string := AHandler "onKeydown"]>
    (<["onClick"%string := AHandler "onClick"]> ∅) in
  if isInput
  then <["onInvalid"%string := AHandler "onInvalid"]> baseHandlers
  else baseHandlers.

(** [toValue(props.disabled || group?.disabled) ?? false]: a prop that is
    present is a ref or getter, hence truthy, and hides the group's flag. *)
Definition isDisabled (st : State) : bool :=
  match disabled props with
  | Some v => default false v
  | None =>
      match group with
      | Some g => ctxDisabled g (groupSt st)
      | None => false
      end
  end.

(** [createBindings]: the spreads first, then the keys in source order. *)
Definition createBindings (isInput : bool) (st : State)
    : gmap string AttrValue :=
  <[(if isInput then "required" else "aria-required")%string :=
      match group with
      | Some g => ABool (ctxRequired g (groupSt st))
      | None => AUndefined
      end]>
  (<[(if isInput then "disabled" else "aria-disabled")%string :=
      orUndefined (isDisabled st)]>
  (<[(if isInput then "readonly" else "aria-readonly")%string :=
      match group with
      | Some g => orUndefined (ctxReadonly g (groupSt st))
      | None => AUndefined
      end]>
  (<[(if isInput then "checked" else "aria-checked")%string :=
      ABool (checked st)]>
  (<["id"%string := AStr inputId]>
  (createHandlers isInput ∪ labelEntries labelledByProps))))).

(** [checkboxProps]: the keys of [createBindings] are spread after [role]
    and [tabindex] and would replace them. *)
Definition checkboxProps (st : State) : gmap string AttrValue :=
  withRefCapture
    (createBindings false st ∪
     <["tabindex"%string :=
         if truthyBool (toValueBool (disabled props)) then AStr "-1" else AStr "0"]>
     (<["role"%string := AStr "checkbox"]> ∅)).
End Checkbox.

Arguments State : clear implicits.

End Checkbox.

(** ** useForm *)
Module Form.

(** A touched schema: a nested record whose leaves are flags. *)
#[warnings="-register-all"]
Inductive TouchedSchema : Type :=
| TLeaf (v : JsValue)
| TNode (fields : list (string * TouchedSchema)).

(** Modelled from the spec: [findLeaf] of [utils/path] is not among the
    sources.  It walks the nested record in key order and returns the first
    leaf that satisfies the predicate, with the path to it, and [undefined]
    when no leaf does. *)
Fixpoint findLeaf (predicate : JsValue → bool) (path : list string)
    (obj : TouchedSchema) : option (list string * JsValue) :=
  match obj with
  | TLeaf v => if predicate v then Some (path, v) else None
  | TNode fields =>
      (fix walk (fs : list (string * TouchedSchema)) :=
         match fs with
         | [] => None
         | (k, child) :: rest =>
             match findLeaf predicate (path ++ [k]) child with
             | Some found => Some found
             | None => walk rest
             end
         end) fields
  end.

(** The leaves of a touched schema. *)
Inductive LeafOf (v : JsValue) : TouchedSchema → Prop :=
| LeafHere : LeafOf v (TLeaf v)
| LeafBelow k child fields :
    (k, child) ∈ fields → LeafOf v child → LeafOf v (TNode fields).

(** Modelled from the spec: [hasErrors] of the form context built by
    [createFormContext] is not among the sources.  The errors of the context
    are the messages recorded for each field path, and the context holds
    errors when some field path has a message. *)
Definition hasErrors (errors : gmap string (list string)) : bool :=
  negb (bool_decide (map_Forall (λ _ msgs, msgs = []) errors)).

Section Form.
(** The type of the form values, a nested key/value tree, with its deep
    equality. *)
Context {TInput : Type} `{EqDecision TInput}.

(** The reactive state of a form: [values], [touched], [errors], and
    [valuesSnapshot.originals.value]. *)
Record State : Type := {
  values : TInput;
  touched : TouchedSchema;
  errors : gmap string (list string);
  originals : TInput
}.

(** The state [useForm] sets up from the originals of the two snapshots. *)
Definition useForm (valuesOriginals : TInput)
    (touchedOriginals : TouchedSchema) : State :=
  {| values := cloneDeep valuesOriginals;
     touched := cloneDeep touchedOriginals;
     errors := ∅;
     originals := valuesOriginals |}.

Definition isTouched (st : State) : bool :=
  bool_decide
    (is_Some (findLeaf (λ l, strictEquals l (JBool true)) [] (touched st))).

Definition isDirty (st : State) : bool :=
  negb (isEqual (values st) (originals st)).

Definition isValid (st : State) : bool :=
  negb (hasErrors (errors st)).
End Form.

Arguments State : clear implicits.

End Form.

(** ** useNumberField: the [beforeinput] handler *)
Module NumberField.

(** The first [n] characters of a string, and the string without them. *)
Fixpoint takeStr (n : nat) (s : string) : string :=
  match n, s with
  | S n, String c rest => String c (takeStr n rest)
  | _, _ => EmptyString
  end.

Fixpoint dropStr (n : nat) (s : string) : string :=
  match n, s with
  | S n, String _ rest => dropStr n rest
  | _, _ => s
  end.

(** [s.slice(start, end)] for bounds that are absent or not negative: an
    absent start is [0], an absent end is the length. *)
Definition slice (s : string) (start end_ : option nat) : string :=
  let from := default 0%nat start in
  let to := default (String.length s) end_ in
  takeStr (to - from) (dropStr from s).

(** The input element and the event, as the handler reads them. *)
Record InputElement : Type := {
  value : string;
  selectionStart : option nat;
  selectionEnd : option nat
}.

Record InputEvent : Type := {
  data : option string;
  target : InputElement;
  defaultPrevented : bool;
  propagationStopped : bool
}.

Definition preventDefault (e : InputEvent) : InputEvent :=
  {| data := data e; target := target e; defaultPrevented := true;
     propagationStopped := propagationStopped e |}.

Definition stopPropagation (e : InputEvent) : InputEvent :=
  {| data := data e; target := target e;
     defaultPrevented := defaultPrevented e; propagationStopped := true |}.

(** The value the handler predicts: the text before the selection, the
    new data, the text after the selection. *)
Definition nextValue (el : InputElement) (data : string) : string :=
  (slice (value el) (Some 0%nat) (selectionStart el) ++ data
   ++ slice (value el) (selectionEnd el) None)%string.

(** [handlers.onBeforeinput], over [parser.isValidNumberPart] of
    [useNumberParser]. *)
Definition onBeforeinput (isValidNumberPart : string → bool)
    (event : InputEvent) : InputEvent :=
  match data event with
  | None => event
  | Some d =>
      if isValidNumberPart (nextValue (target event) d) then event
      else stopPropagation (preventDefault event)
  end.

End NumberField.

(** ** Concrete groups, checkboxes and forms *)
Module Examples.

(** A radio group of four whose first radio is disabled. *)
Definition radios : list (RadioGroup.RadioItemContext (option nat)) :=
  [RadioGroup.radioItem 0 true; RadioGroup.radioItem 1 false;
   RadioGroup.radioItem 2 false; RadioGroup.radioItem 3 false].

Definition arrowDown : RadioGroup.KeyboardEvent :=
  {| RadioGroup.key := "ArrowDown"; RadioGroup.defaultPrevented := false |}.

Definition arrowUp : RadioGroup.KeyboardEvent :=
  {| RadioGroup.key := "ArrowUp"; RadioGroup.defaultPrevented := false |}.

(** A checkbox group of three input checkboxes that holds one value. *)
Definition checkboxGroup : CheckboxGroup.State JsValue :=
  {| CheckboxGroup.fieldValue := Some [JStr "a"];
     CheckboxGroup.checkboxes :=
       [ {| CheckboxGroup.id := "c1"; CheckboxGroup.elemIsInput := true |};
         {| CheckboxGroup.id := "c2"; CheckboxGroup.elemIsInput := true |};
         {| CheckboxGroup.id := "c3"; CheckboxGroup.elemIsInput := true |} ];
     CheckboxGroup.validityUpdates := 0 |}.

(** An ungrouped checkbox with a custom true value, unchecked. *)
Definition plainProps : Checkbox.CheckboxProps :=
  {| Checkbox.disabled := Some (Some false);
     Checkbox.trueValue := Some (JStr "yes");
     Checkbox.falseValue := None;
     Checkbox.indeterminate := None |}.

Definition plainState : Checkbox.State unit :=
  {| Checkbox.groupSt := tt; Checkbox.fieldRef := JBool false |}.

(** A provider of [CheckboxGroupKey] for concrete grouped checkboxes.  It
    stands for any object of type [CheckboxGroupContext] and is not the
    group of [useCheckboxGroup]: its state is the array of values it holds,
    a value is present when the array has it, and toggling adds an absent
    value and removes a present one, or follows [force]. *)
Definition arrayGroup (disabled readonly required : bool)
    : Checkbox.CheckboxGroupContext (list JsValue) :=
  {| Checkbox.ctxDisabled := λ _, disabled;
     Checkbox.ctxReadonly := λ _, readonly;
     Checkbox.ctxRequired := λ _, required;
     Checkbox.ctxModelValue := λ g, Some g;
     Checkbox.ctxHasValue := λ g v, bool_decide (v ∈ g);
     Checkbox.ctxToggleValue := λ g v force,
       if nullishBool force (negb (bool_decide (v ∈ g)))
       then (if bool_decide (v ∈ g) then g else g ++ [v])
       else List.filter (λ x, negb (bool_decide (x = v))) g |}.

(** An indeterminate checkbox of such a group, for the value [b]. *)
Definition frozenProps : Checkbox.CheckboxProps :=
  {| Checkbox.disabled := None;
     Checkbox.trueValue := Some (JStr "b");
     Checkbox.falseValue := None;
     Checkbox.indeterminate := Some (Some true) |}.

Definition groupedState : Checkbox.State (list JsValue) :=
  {| Checkbox.groupSt := [JStr "a"]; Checkbox.fieldRef := JUndefined |}.

(** A touched schema with one touched field below [address]. *)
Definition touchedOnce : Form.TouchedSchema :=
  Form.TNode
    [("name"%string, Form.TLeaf (JBool false));
     ("address"%string,
      Form.TNode [("street"%string, Form.TLeaf JUndefined);
                  ("city"%string, Form.TLeaf (JBool true))])].

(** Radio groups of enabled radios and of disabled radios, and radio
    objects with their references. *)
Definition enabledRadios : list (RadioGroup.RadioItemContext (option nat)) :=
  [RadioGroup.radioItem 0 false; RadioGroup.radioItem 1 false;
   RadioGroup.radioItem 2 false].

Definition disabledRadios : list (RadioGroup.RadioItemContext (option nat)) :=
  [RadioGroup.radioItem 0 true; RadioGroup.radioItem 1 true].

Definition radioObject (n : nat) : RadioGroup.RadioObject (option nat) :=
  {| RadioGroup.ref := n; RadioGroup.context := RadioGroup.radioItem n false |}.

(** A checkbox for the value [a] that has no [disabled] prop, a disabled
    ungrouped checkbox, and an ungrouped checkbox whose true value is
    [NaN]. *)
Definition memberProps : Checkbox.CheckboxProps :=
  {| Checkbox.disabled := None;
     Checkbox.trueValue := Some (JStr "a");
     Checkbox.falseValue := None;
     Checkbox.indeterminate := None |}.

Definition nanProps : Checkbox.CheckboxProps :=
  {| Checkbox.disabled := None;
     Checkbox.trueValue := Some JNaN;
     Checkbox.falseValue := None;
     Checkbox.indeterminate := None |}.

Definition disabledProps : Checkbox.CheckboxProps :=
  {| Checkbox.disabled := Some (Some true);
     Checkbox.trueValue := None;
     Checkbox.falseValue := None;
     Checkbox.indeterminate := None |}.

Definition spaceKey : Checkbox.DomEvent :=
  {| Checkbox.code := "Space"; Checkbox.defaultPrevented := false;
     Checkbox.propagationStopped := false |}.

End Examples.

(** * Properties *)

(** ** Array helpers *)
Module JsFacts.

Lemma arrayAt_nat {A} (arr : list A) (i : nat) :
  arrayAt arr (Z.of_nat i) = arr !! i.
Proof.
  unfold arrayAt. destruct (Z.ltb_spec (Z.of_nat i) 0) as [Hneg|_]; [lia|].
  by rewrite Nat2Z.id.
Qed.

Lemma findIndex_none {A} (p : A → bool) (arr : list A) :
  findIndex p arr = -1 ↔ Forall (λ x, p x = false) arr.
Proof.
  unfold findIndex. destruct (list_find _ arr) as [[i x]|] eqn:Hfind.
  - split; [lia|]. intros Hall. apply list_find_Some in Hfind as (Hi & Hp & _).
    rewrite Forall_forall in Hall.
    apply list_elem_of_lookup_2 in Hi. apply Hall in Hi. congruence.
  - split; [|done]. intros _. apply list_find_None in Hfind.
    eapply Forall_impl; [exact Hfind|]. intros x Hx. simpl in Hx.
    by destruct (p x).
Qed.

Lemma findIndex_some {A} (p : A → bool) (arr : list A) (i : nat) :
  findIndex p arr = Z.of_nat i ↔
  ∃ x, arr !! i = Some x ∧ p x = true ∧
       ∀ j y, arr !! j = Some y → (j < i)%nat → p y = false.
Proof.
  unfold findIndex. destruct (list_find _ arr) as [[k x]|] eqn:Hfind.
  - apply list_find_Some in Hfind as (Hk & Hp & Hbefore). split.
    + intros Heq. assert (k = i) as -> by lia. exists x. repeat split; [done..|].
      intros j y Hj Hlt. specialize (Hbefore j y Hj Hlt). by destruct (p y).
    + intros (y & Hi & Hpy & Hfirst). f_equal.
      destruct (Nat.lt_trichotomy k i) as [Hlt|[->|Hgt]]; [|done|].
      * specialize (Hfirst k x Hk Hlt). congruence.
      * specialize (Hbefore i y Hi Hgt). congruence.
  - split; [lia|]. intros (x & Hi & Hp & _). apply list_find_None in Hfind.
    rewrite Forall_forall in Hfind. apply list_elem_of_lookup_2 in Hi.
    by apply Hfind in Hi.
Qed.

Lemma filter_all {A} (p : A → bool) (arr : list A) :
  Forall (λ x, p x = true) arr → List.filter p arr = arr.
Proof.
  induction 1 as [|x l Hx _ IH]; simpl; [done|]. by rewrite Hx, IH.
Qed.

Lemma find_all {A} (p : A → bool) (arr : list A) :
  Forall (λ x, p x = true) arr → List.find p arr = head arr.
Proof. destruct 1 as [|x l Hx _]; simpl; [done|]. by rewrite Hx. Qed.

Lemma labelEntries_other (l : AriaLabelableProps) (k : string) :
  k ≠ "aria-label"%string → k ≠ "aria-labelledby"%string →
  labelEntries l !! k = None.
Proof.
  intros Hl Hlb. unfold labelEntries.
  destruct (aria_label l), (aria_labelledby l);
    rewrite ?lookup_insert_ne by done; apply lookup_empty.
Qed.

Lemma strictEquals_eq (a b : JsValue) : strictEquals a b = true → a = b.
Proof.
  unfold strictEquals. destruct a, b; try done; by intros ?%bool_decide_eq_true.
Qed.

Lemma strictEquals_same (a : JsValue) :
  strictEquals a a = negb (bool_decide (a = JNaN)).
Proof.
  unfold strictEquals. destruct a; try done; by rewrite bool_decide_eq_true_2.
Qed.

End JsFacts.

(** ** The roving selection of a radio group *)
Module RadioGroupFacts.
Import RadioGroup JsFacts.

Section Handlers.
Context {St : Type}.
Implicit Types (radios : list (RadioItemContext St)) (s : St).

(** X6: With no radio checked, either handler checks the first registered
    radio. *)
Lemma handleArrow_none_checked radios s :
  Forall (λ radio, isChecked radio s = false) radios →
  handleArrowNext radios s = callSetChecked (head radios) s ∧
  handleArrowPrevious radios s = callSetChecked (head radios) s.
Proof.
  intros Hnone. apply (findIndex_none (λ radio, isChecked radio s)) in Hnone.
  unfold handleArrowNext, handleArrowPrevious. rewrite Hnone. simpl.
  change 0 with (Z.of_nat 0). by rewrite arrayAt_nat, head_lookup.
Qed.

(** In a group without disabled radios the next-handler checks the radio
    the specification names. *)
Lemma handleArrowNext_all_enabled radios s (i : nat) :
  Forall (λ radio, isDisabled radio s = false) radios →
  findIndex (λ radio, isChecked radio s) radios = Z.of_nat i →
  handleArrowNext radios s = callSetChecked (nextEnabledAfter radios s i) s.
Proof.
  intros Hen Hidx. unfold handleArrowNext, nextEnabledAfter. rewrite Hidx.
  destruct (Z.ltb_spec (Z.of_nat i) 0) as [?|_]; [lia|].
  apply findIndex_some in Hidx as (x & Hi & _).
  apply lookup_lt_Some in Hi.
  assert (Hall : ∀ l, l ⊆ radios →
            Forall (λ radio, negb (isDisabled radio s) = true) l).
  { intros l Hl. rewrite Forall_forall in Hen. apply Forall_forall.
    intros r Hr. by rewrite (Hen r (Hl r Hr)). }
  rewrite filter_all by (by apply Hall).
  rewrite find_all.
  2:{ apply Hall. intros r [Hr%(subseteq_drop _ _ r)|Hr%(subseteq_take _ _ r)]%elem_of_app; done. }
  f_equal. unfold getNextCycleArrIdx.
  destruct (Z.ltb_spec (Z.of_nat i + 1) 0) as [?|_]; [lia|].
  destruct (Z.leb_spec (Z.of_nat (length radios)) (Z.of_nat i + 1)) as [Hlast|Hin].
  - rewrite drop_ge by lia. simpl. rewrite take_ge by lia.
    change 0 with (Z.of_nat 0). by rewrite arrayAt_nat, head_lookup.
  - replace (Z.of_nat i + 1) with (Z.of_nat (S i)) by lia.
    rewrite arrayAt_nat, !head_lookup, lookup_app_l by (rewrite length_drop; lia).
    rewrite lookup_drop. f_equal. lia.
Qed.

(** In a group without disabled radios the previous-handler checks the
    radio the specification names. *)
Lemma handleArrowPrevious_all_enabled radios s (i : nat) :
  Forall (λ radio, isDisabled radio s = false) radios →
  findIndex (λ radio, isChecked radio s) radios = Z.of_nat i →
  handleArrowPrevious radios s = callSetChecked (prevEnabledBefore radios s i) s.
Proof.
  intros Hen Hidx. unfold handleArrowPrevious, prevEnabledBefore. rewrite Hidx.
  destruct (Z.eqb_spec (Z.of_nat i) (-1)) as [?|_]; [lia|].
  apply findIndex_some in Hidx as (x & Hi & _).
  apply lookup_lt_Some in Hi.
  assert (Hall : ∀ l, l ⊆ radios →
            Forall (λ radio, negb (isDisabled radio s) = true) l).
  { intros l Hl. rewrite Forall_forall in Hen. apply Forall_forall.
    intros r Hr. by rewrite (Hen r (Hl r Hr)). }
  rewrite filter_all by (by apply Hall).
  rewrite find_all.
  2:{ apply Hall. intros r [Hr%elem_of_reverse%(subseteq_take _ _ r)
                            |Hr%elem_of_reverse%(subseteq_drop _ _ r)]%elem_of_app; done. }
  f_equal. unfold getNextCycleArrIdx.
  destruct i as [|i].
  - simpl. rewrite drop_0. replace (Z.of_nat (length radios) - 1)
      with (Z.of_nat (length radios - 1)) by lia.
    destruct (Z.leb_spec (Z.of_nat (length radios))
                (Z.of_nat (length radios - 1))) as [?|_]; [lia|].
    rewrite arrayAt_nat, head_reverse, last_lookup. f_equal. lia.
  - replace (Z.of_nat (S i) - 1) with (Z.of_nat i) by lia.
    destruct (Z.ltb_spec (Z.of_nat i) 0) as [?|_]; [lia|].
    destruct (Z.leb_spec (Z.of_nat (length radios)) (Z.of_nat i)) as [?|_]; [lia|].
    rewrite arrayAt_nat, head_lookup.
    rewrite lookup_app_l by (rewrite length_reverse, length_take; lia).
    rewrite reverse_lookup by (rewrite length_take; lia).
    rewrite length_take, lookup_take_lt by lia. f_equal. lia.
Qed.
(** The keys of the next direction run [handleArrowNext], the keys of the
    previous direction run [handleArrowPrevious], and both mark the event;
    no other key does anything. *)
Lemma onKeydown_dispatch (d : option Direction) radios (e : KeyboardEvent) s :
  onKeydown d radios e s =
    if bool_decide (key e ∈ next (getOrientationArrows d))
    then (preventDefault e, handleArrowNext radios s)
    else if bool_decide (key e ∈ prev (getOrientationArrows d))
    then (preventDefault e, handleArrowPrevious radios s)
    else (e, s).
Proof. reflexivity. Qed.
End Handlers.

(** In a group of three enabled radios the check cycles in both
    directions, the horizontal arrows swap in a right-to-left group, and
    another key leaves the event and the group alone. *)
Example onKeydown_runs :
  let group :=
    registerRadio
      (registerRadio (registerRadio [] (radioItem 0 false)) (radioItem 1 false))
      (radioItem 2 false) in
  let press k := {| key := k; defaultPrevented := false |} in
  onKeydown None group (press "ArrowDown") (Some 2%nat)
    = (preventDefault (press "ArrowDown"), Some 0%nat) ∧
  onKeydown None group (press "ArrowLeft") (Some 0%nat)
    = (preventDefault (press "ArrowLeft"), Some 2%nat) ∧
  onKeydown (Some Rtl) group (press "ArrowLeft") (Some 0%nat)
    = (preventDefault (press "ArrowLeft"), Some 1%nat) ∧
  onKeydown None group (press "ArrowUp") None
    = (preventDefault (press "ArrowUp"), Some 0%nat) ∧
  onKeydown None group (press "Enter") (Some 1%nat)
    = (press "Enter", Some 1%nat).
Proof. repeat split; vm_compute; reflexivity. Qed.

End RadioGroupFacts.

Module RadioGroupClaims.
Import RadioGroup.

(** C1: a next-direction (previous-direction) arrow key moves the check to
    the next (previous) radio that is not disabled, cycling.  On a group
    whose first radio is disabled and whose second radio is checked the
    handlers do otherwise: ArrowDown checks the fourth radio although the
    third is the next one that is not disabled, and ArrowUp leaves the check
    on the second radio although, cycling, the fourth is the previous one
    that is not disabled. *)
Theorem roving_selection_misses_candidate :
  findIndex (λ radio, isChecked radio (Some 1%nat)) Examples.radios = 1 ∧
  snd (onKeydown None Examples.radios Examples.arrowDown (Some 1%nat))
    = Some 3%nat ∧
  callSetChecked (nextEnabledAfter Examples.radios (Some 1%nat) 1) (Some 1%nat)
    = Some 2%nat ∧
  snd (onKeydown None Examples.radios Examples.arrowUp (Some 1%nat))
    = Some 1%nat ∧
  callSetChecked (prevEnabledBefore Examples.radios (Some 1%nat) 1) (Some 1%nat)
    = Some 3%nat.
Proof. repeat split; vm_compute; reflexivity. Qed.

(** C5: the props of a radio group carry [aria-invalid], which is [true]
    exactly when the error message of the group is a non-empty string and
    [undefined] otherwise, and [aria-describedby], which is what
    [describedBy()] derives from the description and error message ids. *)
Theorem radioGroupProps_validation (v : GroupView) :
  (radioGroupProps v !! "aria-invalid"%string = Some (ABool true) ↔
     ∃ msg, errorMessage v = Some msg ∧ msg ≠ ""%string) ∧
  (radioGroupProps v !! "aria-invalid"%string = Some AUndefined ↔
     ¬ ∃ msg, errorMessage v = Some msg ∧ msg ≠ ""%string) ∧
  radioGroupProps v !! "aria-describedby"%string = Some (optStr (describedBy v)).
Proof.
  unfold radioGroupProps.
  rewrite !(lookup_insert_ne _ "onKeydown"%string) by done.
  rewrite lookup_insert_eq, lookup_insert_ne, lookup_insert_eq by done.
  split; [|split]; [| |done].
  - destruct (errorMessage v) as [msg|]; simpl.
    + case_bool_decide as Hmsg; simpl.
      * split; [done|]. intros (m & [= <-] & Hne). done.
      * split; [|done]. intros _. by exists msg.
    + split; [done|]. by intros (m & ? & _).
  - destruct (errorMessage v) as [msg|]; simpl.
    + case_bool_decide as Hmsg; simpl.
      * split; [|done]. intros _ (m & [= <-] & Hne). done.
      * split; [done|]. intros Hno. exfalso. apply Hno. by exists msg.
    + split; [|done]. intros _ (m & ? & _). done.
Qed.

(** The remaining keys of the group props. *)
Lemma radioGroupProps_role (v : GroupView) :
  radioGroupProps v !! "role"%string = Some (AStr "radiogroup") ∧
  radioGroupProps v !! "dir"%string = Some (dirAttr (dir v)).
Proof.
  unfold radioGroupProps. split.
  - by rewrite !(lookup_insert_ne _ _ "role"%string), lookup_insert_eq by done.
  - by rewrite !(lookup_insert_ne _ _ "dir"%string), lookup_insert_eq by done.
Qed.

End RadioGroupClaims.

(** ** Checkbox groups *)
Module CheckboxGroupClaims.
Import CheckboxGroup.

Section Group.
Context {TCheckbox : Type} `{EqDecision TCheckbox}.
Implicit Types (st : State TCheckbox) (value : TCheckbox).

Lemma isEqual_refl value : isEqual value value = true.
Proof. unfold isEqual. by apply bool_decide_eq_true. Qed.

Lemma existsb_filter_out value (l : list TCheckbox) :
  existsb (λ v, isEqual v value)
    (List.filter (λ v, negb (isEqual v value)) l) = false.
Proof.
  induction l as [|x l IH]; simpl; [done|].
  destruct (isEqual x value) eqn:Hx; simpl; [done|]. by rewrite Hx.
Qed.

(** Toggling touches the field value only. *)
Lemma toggleValue_fieldValue value force st :
  fieldValue (toggleValue value force st) =
  Some (toggleValueSelection (default [] (fieldValue st)) value force).
Proof. unfold toggleValue. by destruct (existsb _ _). Qed.

Lemma toggleValue_checkboxes value force st :
  checkboxes (toggleValue value force st) = checkboxes st.
Proof. unfold toggleValue. by destruct (existsb _ _). Qed.

Lemma hasValue_toggleValue value st :
  hasValue value (toggleValue value None st) = negb (hasValue value st).
Proof.
  unfold hasValue. rewrite toggleValue_fieldValue. simpl.
  unfold toggleValueSelection. simpl.
  destruct (existsb _ (default [] (fieldValue st))) eqn:Hpresent; simpl.
  - apply existsb_filter_out.
  - rewrite existsb_app, Hpresent. simpl. by rewrite isEqual_refl.
Qed.

(** C2: [toggleValue(v)] without [force] adds [v] to the value array of the
    group when no element deep-equal to [v] is present and removes it when
    one is present, so that [hasValue(v)] flips; calling it twice in a row
    leaves [hasValue(v)] as it was. *)
Theorem toggleValue_membership value st :
  fieldValue (toggleValue value None st) =
    Some (if hasValue value st
          then List.filter (λ v, negb (isEqual v value)) (default [] (fieldValue st))
          else default [] (fieldValue st) ++ [value]) ∧
  hasValue value (toggleValue value None st) = negb (hasValue value st) ∧
  hasValue value (toggleValue value None (toggleValue value None st)) =
    hasValue value st.
Proof.
  split; [|split].
  - rewrite toggleValue_fieldValue. unfold toggleValueSelection, hasValue.
    simpl. by destruct (existsb _ _).
  - apply hasValue_toggleValue.
  - rewrite !hasValue_toggleValue. apply negb_involutive.
Qed.

(** C9: the state of a group is [unchecked] exactly when its value array is
    absent or empty, [mixed] exactly when the length of the array lies
    strictly between zero and the number of registered checkboxes, and
    [checked] otherwise, which includes a length that equals or exceeds the
    number of registered checkboxes. *)
Theorem groupState_trichotomy st :
  (groupState st = Unchecked ↔
     fieldValue st = None ∨ fieldValue st = Some []) ∧
  (groupState st = Mixed ↔
     ∃ fv, fieldValue st = Some fv ∧
           (0 < length fv < length (checkboxes st))%nat) ∧
  (groupState st = Checked ↔
     ∃ fv, fieldValue st = Some fv ∧
           (0 < length fv)%nat ∧ (length (checkboxes st) ≤ length fv)%nat).
Proof.
  unfold groupState. destruct (fieldValue st) as [fv|].
  2:{ repeat split; try done; try (by left); by intros (? & ? & _). }
  destruct (Nat.eqb_spec (length fv) 0) as [Hlen|Hlen].
  { apply length_zero_iff_nil in Hlen as ->. simpl.
    repeat split; try done; try (by right);
      intros (fv & [= <-] & Hpos); simpl in Hpos; lia. }
  assert (Hne : fv ≠ []) by (by intros ->).
  destruct (Nat.ltb_spec 0 (length fv)) as [_|?]; [|lia].
  destruct (Nat.ltb_spec (length fv) (length (checkboxes st))) as [Hlt|Hge];
    simpl.
  - repeat split; try done.
    + intros [|[= ->]]; done.
    + intros _. exists fv. split; [done|lia].
    + intros (fv' & [= <-] & _ & Hle). lia.
  - repeat split; try done.
    + intros [|[= ->]]; done.
    + intros (fv' & [= <-] & _ & Hlt). lia.
    + intros _. exists fv. split; [done|lia].
Qed.
End Group.

(** The example group: one of three values is present, so it is mixed;
    toggling the present value empties it, toggling two more fills it. *)
Example groupState_runs :
  groupState Examples.checkboxGroup = Mixed ∧
  groupState (toggleValue (JStr "a") None Examples.checkboxGroup) = Unchecked ∧
  fieldValue (toggleValue (JStr "b") None Examples.checkboxGroup)
    = Some [JStr "a"; JStr "b"] ∧
  groupState
    (toggleValue (JStr "c") None
       (toggleValue (JStr "b") None Examples.checkboxGroup)) = Checked.
Proof. repeat split; reflexivity. Qed.

(** A custom element among the checkboxes makes every toggle update the
    validity. *)
Example toggleValue_updates_validity :
  let custom := {| id := "c4"; elemIsInput := false |} in
  validityUpdates
    (toggleValue (JStr "b") None
       (useCheckboxRegistration custom Examples.checkboxGroup)) = 1%nat ∧
  validityUpdates (toggleValue (JStr "b") None Examples.checkboxGroup) = 0%nat ∧
  unregister custom (useCheckboxRegistration custom Examples.checkboxGroup)
    = Examples.checkboxGroup.
Proof. repeat split; reflexivity. Qed.

End CheckboxGroupClaims.

(** ** Checkboxes *)
Module CheckboxClaims.
Import Checkbox JsFacts.

Section Ungrouped.
Context {G : Type}.
Implicit Types (props : CheckboxProps) (st : State G) (force : option bool).
Local Abbreviation ungrouped := (@None (CheckboxGroupContext G)).

(** The value an ungrouped checkbox holds after [toggleValue], whatever its
    [disabled] prop: only the handlers look at that prop. *)
Lemma toggleValue_own props force st :
  truthyBool (toValueBool (indeterminate props)) = false →
  fieldValue ungrouped (toggleValue ungrouped props force st) =
    Own (if nullishBool force (negb (checked ungrouped props st))
         then getTrueValue props else getFalseValue props).
Proof. intros Hind. unfold toggleValue. rewrite Hind. reflexivity. Qed.

(** C3: for an ungrouped checkbox that is neither disabled nor
    indeterminate, [toggleValue()] sets the field value to the true value
    when the checkbox is unchecked and to the false value when it is
    checked, [toggleValue(force)] sets it to the true value when [force] is
    true and to the false value when it is false; the true value defaults
    to [true] and the false value to [false]. *)
Theorem toggleValue_ungrouped props force st :
  truthyBool (toValueBool (disabled props)) = false →
  truthyBool (toValueBool (indeterminate props)) = false →
  fieldValue ungrouped (toggleValue ungrouped props force st) =
    Own (match force with
         | Some true => getTrueValue props
         | Some false => getFalseValue props
         | None => if checked ungrouped props st
                   then getFalseValue props else getTrueValue props
         end) ∧
  getTrueValue props =
    match trueValue props with
    | None | Some JUndefined | Some JNull => JBool true
    | Some v => v
    end ∧
  getFalseValue props =
    match falseValue props with
    | None | Some JUndefined | Some JNull => JBool false
    | Some v => v
    end.
Proof.
  intros _ Hind. split; [|split].
  - rewrite toggleValue_own by done.
    unfold nullishBool. destruct force as [[]|]; [done..|].
    by destruct (checked ungrouped props st).
  - unfold getTrueValue. by destruct (trueValue props) as [[]|].
  - unfold getFalseValue. by destruct (falseValue props) as [[]|].
Qed.
End Ungrouped.

Section Any.
Context {G : Type}.
Implicit Types (group : option (CheckboxGroupContext G)).
Implicit Types (props : CheckboxProps) (st : State G) (force : option bool).

(** C10: while the [indeterminate] prop of a checkbox is true, [setChecked]
    and [toggleValue] return without changing anything, the field value
    included, whatever their [force] argument. *)
Theorem indeterminate_freezes group props force st :
  toValueBool (indeterminate props) = Some true →
  setChecked group props force st = st ∧
  toggleValue group props force st = st ∧
  fieldValue group (setChecked group props force st) = fieldValue group st ∧
  fieldValue group (toggleValue group props force st) = fieldValue group st.
Proof.
  intros Hind. unfold setChecked, toggleValue. rewrite Hind. simpl. done.
Qed.

Lemma createHandlers_other (isInput : bool) (k : string) :
  k ≠ "onClick"%string → k ≠ "onKeydown"%string → k ≠ "onInvalid"%string →
  createHandlers isInput !! k = None.
Proof.
  intros ???. unfold createHandlers.
  destruct isInput; rewrite ?lookup_insert_ne by done; apply lookup_empty.
Qed.


End Any.

(** The unchecked checkbox with the true value [yes] takes that value. *)
Lemma toggleValue_ungrouped_witness :
  truthyBool (toValueBool (disabled Examples.plainProps)) = false ∧
  truthyBool (toValueBool (indeterminate Examples.plainProps)) = false ∧
  fieldValue None
    (toggleValue None Examples.plainProps None Examples.plainState)
    = Own (JStr "yes").
Proof.
  split; [reflexivity|]. split; [reflexivity|].
  exact (proj1 (toggleValue_ungrouped Examples.plainProps None
                  Examples.plainState eq_refl eq_refl)).
Defined.

(** The indeterminate checkbox of the example group stays as it is. *)
Lemma indeterminate_freezes_witness :
  toValueBool (indeterminate Examples.frozenProps) = Some true ∧
  setChecked (Some (Examples.arrayGroup false false false))
    Examples.frozenProps (Some true) Examples.groupedState
  = Examples.groupedState.
Proof.
  split; [reflexivity|].
  exact (proj1 (indeterminate_freezes
                  (Some (Examples.arrayGroup false false false))
                  Examples.frozenProps (Some true) Examples.groupedState
                  eq_refl)).
Defined.

(** Without the [indeterminate] prop the same calls do change the group. *)
Example setChecked_not_frozen :
  let props := {| disabled := None; trueValue := Some (JStr "b");
                  falseValue := None; indeterminate := None |} in
  let group := Some (Examples.arrayGroup false false false) in
  fieldValue group (setChecked group props None Examples.groupedState)
    = GroupModel (Some [JStr "a"; JStr "b"]) ∧
  fieldValue group (toggleValue group props (Some false) Examples.groupedState)
    = GroupModel (Some [JStr "a"; JStr "b"]).
Proof. split; reflexivity. Qed.


(** The other bindings of that checkbox. *)
Example checkboxProps_in_disabled_group :
  let bindings :=
    checkboxProps (Some (Examples.arrayGroup true false true))
      Examples.memberProps "cb"
      {| aria_label := None; aria_labelledby := Some "cb-l"%string |}
      Examples.groupedState in
  bindings !! "aria-checked"%string = Some (ABool true) ∧
  bindings !! "aria-required"%string = Some (ABool true) ∧
  bindings !! "aria-readonly"%string = Some AUndefined ∧
  bindings !! "aria-labelledby"%string = Some (AStr "cb-l").
Proof. repeat split; vm_compute; reflexivity. Qed.

(** A click on a disabled custom checkbox changes nothing; a press of the
    space bar on an enabled one toggles it. *)
Example handlers_run :
  let click := {| code := ""; defaultPrevented := false;
                  propagationStopped := false |} in
  let space := {| code := "Space"; defaultPrevented := false;
                  propagationStopped := false |} in
  let off := {| disabled := Some (Some true); trueValue := None;
                falseValue := None; indeterminate := None |} in
  onClick (@None (CheckboxGroupContext unit)) off false click
    Examples.plainState = (click, Examples.plainState) ∧
  fieldRef (snd (onKeydown (@None (CheckboxGroupContext unit))
                   Examples.plainProps space Examples.plainState))
    = JStr "yes".
Proof. split; reflexivity. Qed.

End CheckboxClaims.

(** ** Forms *)
Module FormClaims.
Import Form.

(** Induction over a touched schema and the schemas below it. *)
Lemma TouchedSchema_nested_ind (P : TouchedSchema → Prop) :
  (∀ v, P (TLeaf v)) →
  (∀ fields, Forall (λ field, P field.2) fields → P (TNode fields)) →
  ∀ t, P t.
Proof.
  intros Hleaf Hnode. fix IH 1. intros [v|fields].
  - apply Hleaf.
  - apply Hnode. induction fields as [|[k child] rest IHrest].
    + constructor.
    + constructor; [apply IH | apply IHrest].
Qed.

(** [findLeaf] finds a leaf exactly when some leaf satisfies the
    predicate. *)
Lemma findLeaf_is_Some (predicate : JsValue → bool) (t : TouchedSchema) :
  ∀ path,
    is_Some (findLeaf predicate path t) ↔
    ∃ v, predicate v = true ∧ LeafOf v t.
Proof.
  induction t as [v|fields IH] using TouchedSchema_nested_ind; intros path.
  - simpl. destruct (predicate v) eqn:Hv; split.
    + intros _. exists v. split; [done|constructor].
    + by intros _.
    + by intros [? [=]].
    + intros (w & Hw & Hleaf). inversion Hleaf; subst. congruence.
  - simpl. induction IH as [|[k child] rest Hchild _ IHrest].
    + split; [by intros [? [=]]|].
      intros (v & _ & Hleaf). inversion Hleaf as [|? ? ? Hin]; subst.
      by apply elem_of_nil in Hin.
    + simpl in Hchild. specialize (Hchild (path ++ [k])).
      destruct (findLeaf predicate (path ++ [k]) child) as [found|] eqn:Hfound.
      * split; [|done]. intros _.
        destruct (proj1 Hchild) as (v & Hv & Hleaf); [done|].
        exists v. split; [done|]. econstructor; [|exact Hleaf]. by left.
      * rewrite IHrest. split.
        -- intros (v & Hv & Hleaf). exists v. split; [done|].
           inversion Hleaf as [|k' c' ? Hin Hc]; subst.
           econstructor; [|exact Hc]. by right.
        -- intros (v & Hv & Hleaf). exists v. split; [done|].
           inversion Hleaf as [|k' c' ? Hin Hc]; subst.
           apply elem_of_cons in Hin as [[= -> ->]|Hin].
           ++ destruct (proj2 Hchild) as [? [=]]. eauto.
           ++ econstructor; [exact Hin|exact Hc].
Qed.

Section Form.
Context {TInput : Type} `{EqDecision TInput}.
Implicit Types (st : State TInput).

(** X25: A form that was just set up is clean, valid, and touched only where
    the initial touched schema says so. *)
Lemma useForm_initial (valuesOriginals : TInput) (touchedOriginals : TouchedSchema) :
  isDirty (useForm valuesOriginals touchedOriginals) = false ∧
  isValid (useForm valuesOriginals touchedOriginals) = true ∧
  values (useForm valuesOriginals touchedOriginals) = valuesOriginals ∧
  touched (useForm valuesOriginals touchedOriginals) = touchedOriginals.
Proof.
  unfold isDirty, isValid, hasErrors, isEqual, useForm, cloneDeep. simpl.
  split; [|split; [|done]].
  - by rewrite bool_decide_eq_true_2.
  - rewrite bool_decide_eq_true_2; [done|]. apply map_Forall_empty.
Qed.

(** C4: [isDirty] is true if and only if the current values of the form
    differ, by deep equality, from the initial values snapshot. *)
Theorem isDirty_iff st :
  isDirty st = true ↔ values st ≠ originals st.
Proof.
  unfold isDirty, isEqual. rewrite negb_true_iff. apply bool_decide_eq_false.
Qed.

(** C6: [isValid] is true if and only if the form context holds no errors:
    no field path has a message. *)
Theorem isValid_iff st :
  isValid st = true ↔
  ∀ path msgs, errors st !! path = Some msgs → msgs = [].
Proof.
  unfold isValid, hasErrors. rewrite negb_true_iff, negb_false_iff.
  rewrite bool_decide_eq_true. reflexivity.
Qed.

(** C7: [isTouched] is true if and only if at least one leaf of the touched
    tree of the form equals [true]. *)
Theorem isTouched_iff st :
  isTouched st = true ↔ LeafOf (JBool true) (touched st).
Proof.
  unfold isTouched. rewrite bool_decide_eq_true, findLeaf_is_Some. split.
  - intros (v & Hv & Hleaf). apply JsFacts.strictEquals_eq in Hv. by subst.
  - intros Hleaf. exists (JBool true). by split.
Qed.
End Form.

(** The example schema is touched through [address.city]; a schema whose
    leaves are all [false] or [undefined] is not. *)
Example isTouched_runs :
  findLeaf (λ l, strictEquals l (JBool true)) [] Examples.touchedOnce
    = Some (["address"; "city"]%string, JBool true) ∧
  isTouched (useForm 0%nat Examples.touchedOnce) = true ∧
  isTouched (useForm 0%nat
               (TNode [("name"%string, TLeaf (JBool false));
                       ("age"%string, TLeaf JUndefined)])) = false.
Proof. repeat split; reflexivity. Qed.

(** A form whose values moved away from the originals is dirty, and a form
    with a message for some path is not valid. *)
Example isDirty_isValid_run :
  let st := {| values := 1%nat; touched := TNode [];
               errors := {[ "name"%string := ["required"%string] ]};
               originals := 0%nat |} in
  isDirty st = true ∧ isValid st = false ∧
  isValid {| values := 1%nat; touched := TNode [];
             errors := {[ "name"%string := [] ]}; originals := 1%nat |} = true.
Proof. repeat split; vm_compute; reflexivity. Qed.

End FormClaims.

(** * Further properties of the code *)

#[local] Set Warnings "-clear-no-such-hyp".

(** ** Radio groups: keys, handlers, registration *)
Module RadioGroupExtras.
Import RadioGroup JsFacts.

(** X1: Whatever the direction, the four arrow keys are split into next keys
    and previous keys, no key is both, the vertical arrows keep their
    meaning, and ArrowRight is a next key exactly when the direction is not
    right-to-left. *)
Theorem getOrientationArrows_split (d : option Direction) (k : string) :
  (k ∈ next (getOrientationArrows d) ∨ k ∈ prev (getOrientationArrows d)
     ↔ k ∈ arrowKeys) ∧
  ¬ (k ∈ next (getOrientationArrows d) ∧ k ∈ prev (getOrientationArrows d)) ∧
  "ArrowDown"%string ∈ next (getOrientationArrows d) ∧
  "ArrowUp"%string ∈ prev (getOrientationArrows d) ∧
  ("ArrowRight"%string ∈ next (getOrientationArrows d) ↔ d ≠ Some Rtl) ∧
  ("ArrowLeft"%string ∈ next (getOrientationArrows d) ↔ d = Some Rtl).
Proof.
  unfold arrowKeys.
  destruct d as [[]|]; simpl; rewrite ?elem_of_cons, ?elem_of_nil;
    intuition congruence.
Qed.

Section Handlers.
Context {St : Type}.
Implicit Types (radios : list (RadioItemContext St)) (s : St).

(** X2: The key handler cancels the default action for each of the four arrow
    keys and for no other key, which leaves the event and the state alone;
    in an empty group the arrow keys are cancelled too and the state stays
    as it is. *)
Theorem onKeydown_event (d : option Direction) radios (e : KeyboardEvent) s :
  onKeydown d radios e s =
    (if bool_decide (key e ∈ arrowKeys)
     then (preventDefault e, snd (onKeydown d radios e s))
     else (e, s)) ∧
  snd (onKeydown d [] e s) = s.
Proof.
  assert (Harrows : key e ∈ next (getOrientationArrows d)
                    ∨ key e ∈ prev (getOrientationArrows d)
                    ↔ key e ∈ arrowKeys).
  { unfold arrowKeys.
    destruct d as [[]|]; simpl; rewrite ?elem_of_cons, ?elem_of_nil;
      intuition congruence. }
  unfold onKeydown, includes.
  repeat case_bool_decide; simpl; split; try done; tauto.
Qed.

Lemma arrayAt_elem_of {A} (arr : list A) (i : Z) (x : A) :
  arrayAt arr i = Some x → x ∈ arr.
Proof.
  unfold arrayAt. destruct (i <? 0); [done|]. apply list_elem_of_lookup_2.
Qed.

Lemma candidate_enabled radios s (i : Z) (r : RadioItemContext St) :
  arrayAt (List.filter (λ radio, negb (isDisabled radio s)) radios) i = Some r →
  r ∈ radios ∧ isDisabled r s = false.
Proof.
  intros Hr%arrayAt_elem_of%list_elem_of_In%filter_In.
  destruct Hr as [Hin Hen]. split; [by apply list_elem_of_In|].
  by apply negb_true_iff.
Qed.

Lemma findIndex_exists {A} (p : A → bool) (arr : list A) :
  Exists (λ x, p x = true) arr → 0 ≤ findIndex p arr.
Proof.
  intros Hex. destruct (decide (findIndex p arr = -1)) as [Hnone|Hsome].
  - apply findIndex_none in Hnone. apply Exists_exists in Hex as (x & Hx & Hp).
    rewrite Forall_forall in Hnone. specialize (Hnone x Hx). congruence.
  - unfold findIndex in *. destruct (list_find _ arr) as [[i x]|]; lia.
Qed.

(** What either handler does once a radio is checked: nothing, or one call
    of [setChecked] on a candidate. *)
Lemma handleArrow_candidate radios s :
  0 ≤ findIndex (λ radio, isChecked radio s) radios →
  (handleArrowNext radios s = s ∨
   ∃ r, r ∈ radios ∧ isDisabled r s = false ∧
        handleArrowNext radios s = fst (setChecked r s)) ∧
  (handleArrowPrevious radios s = s ∨
   ∃ r, r ∈ radios ∧ isDisabled r s = false ∧
        handleArrowPrevious radios s = fst (setChecked r s)).
Proof.
  intros Hpos. unfold handleArrowNext, handleArrowPrevious.
  destruct (Z.ltb_spec (findIndex (λ radio, isChecked radio s) radios) 0);
    [lia|].
  destruct (Z.eqb_spec (findIndex (λ radio, isChecked radio s) radios) (-1));
    [lia|].
  split.
  - destruct (arrayAt _ (getNextCycleArrIdx (_ + 1) _)) as [r|] eqn:Hr;
      [right|by left].
    apply candidate_enabled in Hr as [Hin Hen]. by exists r.
  - destruct (arrayAt _ (getNextCycleArrIdx (_ - 1) _)) as [r|] eqn:Hr;
      [right|by left].
    apply candidate_enabled in Hr as [Hin Hen]. by exists r.
Qed.

(** X3: While some radio is checked, an arrow key calls [setChecked] on at most
    one radio, and that radio is registered and not disabled. *)
Theorem handleArrow_checks_enabled radios s :
  Exists (λ radio, isChecked radio s = true) radios →
  (handleArrowNext radios s = s ∨
   ∃ r, r ∈ radios ∧ isDisabled r s = false ∧
        handleArrowNext radios s = fst (setChecked r s)) ∧
  (handleArrowPrevious radios s = s ∨
   ∃ r, r ∈ radios ∧ isDisabled r s = false ∧
        handleArrowPrevious radios s = fst (setChecked r s)).
Proof.
  intros Hchecked. apply handleArrow_candidate.
  by apply (findIndex_exists (λ radio, isChecked radio s)).
Qed.

(** X4: While some radio is checked and every radio is disabled, the arrow
    keys change nothing. *)
Theorem handleArrow_all_disabled radios s :
  Exists (λ radio, isChecked radio s = true) radios →
  Forall (λ radio, isDisabled radio s = true) radios →
  handleArrowNext radios s = s ∧ handleArrowPrevious radios s = s.
Proof.
  intros Hchecked Hdis.
  destruct (handleArrow_candidate radios s) as [Hn Hp].
  { by apply (findIndex_exists (λ radio, isChecked radio s)). }
  rewrite Forall_forall in Hdis.
  split.
  - destruct Hn as [|(r & Hin & Hen & _)]; [done|].
    specialize (Hdis r Hin). congruence.
  - destruct Hp as [|(r & Hin & Hen & _)]; [done|].
    specialize (Hdis r Hin). congruence.
Qed.

(** X5: In a group without disabled radios whose radio at position [i] is the
    checked one, the next key checks the radio at position [i + 1] and the
    previous key the radio at position [i - 1], both modulo the number of
    radios. *)
Theorem handleArrow_cycles radios s (i : nat) :
  Forall (λ radio, isDisabled radio s = false) radios →
  findIndex (λ radio, isChecked radio s) radios = Z.of_nat i →
  handleArrowNext radios s =
    callSetChecked (radios !! ((i + 1) mod length radios)%nat) s ∧
  handleArrowPrevious radios s =
    callSetChecked (radios !! ((i + length radios - 1) mod length radios)%nat) s.
Proof.
  intros Hen Hidx. unfold handleArrowNext, handleArrowPrevious. rewrite Hidx.
  destruct (Z.ltb_spec (Z.of_nat i) 0) as [?|_]; [lia|].
  destruct (Z.eqb_spec (Z.of_nat i) (-1)) as [?|_]; [lia|].
  apply findIndex_some in Hidx as (x & Hi%lookup_lt_Some & _).
  rewrite filter_all.
  2:{ eapply Forall_impl; [exact Hen|]. intros r Hr. simpl. by rewrite Hr. }
  unfold getNextCycleArrIdx. split; f_equal.
  - destruct (Z.ltb_spec (Z.of_nat i + 1) 0) as [?|_]; [lia|].
    destruct (Z.leb_spec (Z.of_nat (length radios)) (Z.of_nat i + 1)).
    + replace (i + 1)%nat with (length radios) by lia.
      rewrite Nat.Div0.mod_same. change 0 with (Z.of_nat 0).
      apply arrayAt_nat.
    + rewrite Nat.mod_small by lia.
      replace (Z.of_nat i + 1) with (Z.of_nat (i + 1)) by lia.
      apply arrayAt_nat.
  - destruct (Z.ltb_spec (Z.of_nat i - 1) 0).
    + assert (i = 0%nat) as -> by lia. simpl.
      rewrite Nat.mod_small by lia.
      destruct (Z.leb_spec (Z.of_nat (length radios))
                  (Z.of_nat (length radios) - 1)); [lia|].
      replace (Z.of_nat (length radios) - 1)
        with (Z.of_nat (length radios - 1)) by lia.
      apply arrayAt_nat.
    + destruct (Z.leb_spec (Z.of_nat (length radios)) (Z.of_nat i - 1)); [lia|].
      replace (i + length radios - 1)%nat
        with ((i - 1) + 1 * length radios)%nat by lia.
      rewrite Nat.Div0.mod_add, Nat.mod_small by lia.
      replace (Z.of_nat i - 1) with (Z.of_nat (i - 1)) by lia.
      apply arrayAt_nat.
Qed.
End Handlers.

Lemma handleArrow_checks_enabled_witness :
  Exists (λ radio, isChecked radio (Some 1%nat) = true) Examples.radios ∧
  (handleArrowNext Examples.radios (Some 1%nat) = Some 1%nat ∨
   ∃ r, r ∈ Examples.radios ∧ isDisabled r (Some 1%nat) = false ∧
        handleArrowNext Examples.radios (Some 1%nat)
          = fst (setChecked r (Some 1%nat))).
Proof.
  assert (Hc : Exists (λ radio, isChecked radio (Some 1%nat) = true)
                 Examples.radios)
    by (apply Exists_cons_tl, Exists_cons_hd; reflexivity).
  split; [exact Hc|].
  exact (proj1 (handleArrow_checks_enabled Examples.radios (Some 1%nat) Hc)).
Defined.

Lemma handleArrow_all_disabled_witness :
  Exists (λ radio, isChecked radio (Some 1%nat) = true)
    Examples.disabledRadios ∧
  Forall (λ radio, isDisabled radio (Some 1%nat) = true)
    Examples.disabledRadios ∧
  handleArrowNext Examples.disabledRadios (Some 1%nat) = Some 1%nat ∧
  handleArrowPrevious Examples.disabledRadios (Some 1%nat) = Some 1%nat.
Proof.
  assert (Hc : Exists (λ radio, isChecked radio (Some 1%nat) = true)
                 Examples.disabledRadios)
    by (apply Exists_cons_tl, Exists_cons_hd; reflexivity).
  assert (Hd : Forall (λ radio, isDisabled radio (Some 1%nat) = true)
                 Examples.disabledRadios)
    by (repeat constructor).
  split; [exact Hc|]. split; [exact Hd|].
  exact (handleArrow_all_disabled Examples.disabledRadios (Some 1%nat) Hc Hd).
Defined.

Lemma handleArrow_cycles_witness :
  Forall (λ radio, isDisabled radio (Some 2%nat) = false)
    Examples.enabledRadios ∧
  findIndex (λ radio, isChecked radio (Some 2%nat)) Examples.enabledRadios
    = Z.of_nat 2 ∧
  handleArrowNext Examples.enabledRadios (Some 2%nat) = Some 0%nat ∧
  handleArrowPrevious Examples.enabledRadios (Some 2%nat) = Some 1%nat.
Proof.
  assert (He : Forall (λ radio, isDisabled radio (Some 2%nat) = false)
                 Examples.enabledRadios)
    by (repeat constructor).
  split; [exact He|]. split; [reflexivity|].
  exact (handleArrow_cycles Examples.enabledRadios (Some 2%nat) 2 He eq_refl).
Defined.

(** With no radio checked both keys go to the first radio of the example
    group, which is disabled. *)
Lemma handleArrow_none_checked_witness :
  Forall (λ radio, isChecked radio None = false) Examples.radios ∧
  handleArrowNext Examples.radios None = Some 0%nat ∧
  handleArrowPrevious Examples.radios None = Some 0%nat.
Proof.
  assert (Hn : Forall (λ radio, isChecked radio None = false) Examples.radios)
    by (repeat constructor).
  split; [exact Hn|].
  exact (RadioGroupFacts.handleArrow_none_checked Examples.radios None Hn).
Defined.

Section Registration.
Context {St : Type}.
Implicit Types (radios before after : list (RadioObject St)).
Implicit Types (radio r : RadioObject St).

Lemma indexOf_first before after r radio :
  ref r = ref radio →
  Forall (λ x, ref x ≠ ref radio) before →
  indexOf (before ++ r :: after) radio = Z.of_nat (length before).
Proof.
  intros Hr Hbefore. apply findIndex_some. exists r. split; [|split].
  - by apply list_lookup_middle.
  - by apply bool_decide_eq_true.
  - intros j y Hj Hlt. rewrite lookup_app_l in Hj by done.
    rewrite Forall_forall in Hbefore.
    apply bool_decide_eq_false, Hbefore. by eapply list_elem_of_lookup_2.
Qed.

Lemma indexOf_absent radios radio :
  Forall (λ x, ref x ≠ ref radio) radios → indexOf radios radio = -1.
Proof.
  intros Habsent. apply findIndex_none.
  eapply Forall_impl; [exact Habsent|]. intros x Hx.
  by apply bool_decide_eq_false.
Qed.

(** X7: Unregistering takes out the first entry that is the given radio and
    nothing else: the entries before and after it stay in their order. *)
Theorem unregisterRadio_first before after r radio :
  ref r = ref radio →
  Forall (λ x, ref x ≠ ref radio) before →
  unregisterRadio (before ++ r :: after) radio = before ++ after.
Proof.
  intros Hr Hbefore. unfold unregisterRadio.
  rewrite (indexOf_first _ _ _ _ Hr Hbefore).
  destruct (Z.leb_spec 0 (Z.of_nat (length before))); [|lia].
  rewrite Nat2Z.id. apply delete_middle.
Qed.

(** X8: Unregistering a radio that is not registered leaves the array as it
    is. *)
Theorem unregisterRadio_absent radios radio :
  Forall (λ x, ref x ≠ ref radio) radios →
  unregisterRadio radios radio = radios.
Proof.
  intros Habsent. unfold unregisterRadio.
  by rewrite (indexOf_absent _ _ Habsent).
Qed.

(** X9: Registering a radio that was not registered and unregistering it again
    gives back the array, and with it what the arrow handlers see. *)
Theorem registration_round_trip radios radio :
  Forall (λ x, ref x ≠ ref radio) radios →
  unregisterRadio (useRadioRegistration radios radio) radio = radios ∧
  contexts (unregisterRadio (useRadioRegistration radios radio) radio)
    = contexts radios.
Proof.
  intros Hfresh. unfold unregisterRadio, useRadioRegistration.
  rewrite (indexOf_first radios [] radio radio eq_refl Hfresh).
  destruct (Z.leb_spec 0 (Z.of_nat (length radios))); [|lia].
  by rewrite Nat2Z.id, delete_middle, app_nil_r.
Qed.

(** X10: While the value of the group is empty the first registered radio, and
    no other, can receive focus; once it is unregistered the radio after it
    can. *)
Theorem canReceiveFocus_takeover (a b : RadioObject St) after (valueIsEmpty : bool) :
  ref a ≠ ref b →
  canReceiveFocus (a :: b :: after) a valueIsEmpty = valueIsEmpty ∧
  canReceiveFocus (a :: b :: after) b valueIsEmpty = false ∧
  canReceiveFocus (unregisterRadio (a :: b :: after) a) b valueIsEmpty
    = valueIsEmpty.
Proof.
  intros Hab. split; [|split].
  - unfold canReceiveFocus. simpl. by rewrite bool_decide_eq_true_2.
  - unfold canReceiveFocus. simpl. by rewrite bool_decide_eq_false_2.
  - unfold unregisterRadio.
    change (a :: b :: after) with ([] ++ a :: b :: after).
    rewrite (indexOf_first [] (b :: after) a a eq_refl) by constructor.
    simpl. unfold canReceiveFocus. simpl. by rewrite bool_decide_eq_true_2.
Qed.
End Registration.

Lemma unregisterRadio_first_witness :
  ref (Examples.radioObject 1) = ref (Examples.radioObject 1) ∧
  Forall (λ x, ref x ≠ ref (Examples.radioObject 1)) [Examples.radioObject 0] ∧
  unregisterRadio
    ([Examples.radioObject 0] ++ Examples.radioObject 1
       :: [Examples.radioObject 2; Examples.radioObject 1])
    (Examples.radioObject 1)
  = [Examples.radioObject 0] ++ [Examples.radioObject 2; Examples.radioObject 1].
Proof.
  assert (Hb : Forall (λ x, ref x ≠ ref (Examples.radioObject 1))
                 [Examples.radioObject 0])
    by (repeat constructor; discriminate).
  split; [reflexivity|]. split; [exact Hb|].
  exact (unregisterRadio_first [Examples.radioObject 0]
           [Examples.radioObject 2; Examples.radioObject 1]
           (Examples.radioObject 1) (Examples.radioObject 1) eq_refl Hb).
Defined.

Lemma unregisterRadio_absent_witness :
  Forall (λ x, ref x ≠ ref (Examples.radioObject 5))
    [Examples.radioObject 0; Examples.radioObject 1] ∧
  unregisterRadio [Examples.radioObject 0; Examples.radioObject 1]
    (Examples.radioObject 5)
  = [Examples.radioObject 0; Examples.radioObject 1].
Proof.
  assert (Ha : Forall (λ x, ref x ≠ ref (Examples.radioObject 5))
                 [Examples.radioObject 0; Examples.radioObject 1])
    by (repeat constructor; discriminate).
  split; [exact Ha|].
  exact (unregisterRadio_absent _ (Examples.radioObject 5) Ha).
Defined.

Lemma registration_round_trip_witness :
  Forall (λ x, ref x ≠ ref (Examples.radioObject 2))
    [Examples.radioObject 0; Examples.radioObject 1] ∧
  unregisterRadio
    (useRadioRegistration [Examples.radioObject 0; Examples.radioObject 1]
       (Examples.radioObject 2))
    (Examples.radioObject 2)
  = [Examples.radioObject 0; Examples.radioObject 1].
Proof.
  assert (Hf : Forall (λ x, ref x ≠ ref (Examples.radioObject 2))
                 [Examples.radioObject 0; Examples.radioObject 1])
    by (repeat constructor; discriminate).
  split; [exact Hf|].
  exact (proj1 (registration_round_trip _ (Examples.radioObject 2) Hf)).
Defined.

Lemma canReceiveFocus_takeover_witness :
  ref (Examples.radioObject 0) ≠ ref (Examples.radioObject 1) ∧
  canReceiveFocus
    (unregisterRadio [Examples.radioObject 0; Examples.radioObject 1]
       (Examples.radioObject 0))
    (Examples.radioObject 1) true = true.
Proof.
  assert (Hne : ref (Examples.radioObject 0) ≠ ref (Examples.radioObject 1))
    by discriminate.
  split; [exact Hne|].
  exact (proj2 (proj2 (canReceiveFocus_takeover (Examples.radioObject 0)
                         (Examples.radioObject 1) [] true Hne))).
Defined.

(** X11: The props of a radio group have the five keys of the literal and the
    label keys and no other key; the label props cannot replace the role,
    and the direction falls back to left-to-right. *)
Theorem radioGroupProps_keys (v : GroupView) :
  dom (radioGroupProps v) =
    {["dir"; "role"; "aria-describedby"; "aria-invalid"; "onKeydown"]}%string
    ∪ dom (labelEntries (labelledByProps v)) ∧
  dom (labelEntries (labelledByProps v))
    ⊆ {["aria-label"; "aria-labelledby"]}%string ∧
  radioGroupProps v !! "role"%string = Some (AStr "radiogroup") ∧
  radioGroupProps v !! "dir"%string =
    Some (AStr (match dir v with Some Rtl => "rtl" | _ => "ltr" end)).
Proof.
  split; [|split; [|split]].
  - unfold radioGroupProps. rewrite !dom_insert_L. set_solver.
  - unfold labelEntries.
    destruct (aria_label _), (aria_labelledby _);
      rewrite ?dom_insert_L, ?dom_empty_L; set_solver.
  - apply RadioGroupClaims.radioGroupProps_role.
  - rewrite (proj2 (RadioGroupClaims.radioGroupProps_role v)).
    by destruct (dir v) as [[]|].
Qed.

End RadioGroupExtras.

(** ** Checkboxes: toggling, handlers, bindings *)
Module CheckboxExtras.
Import Checkbox JsFacts.

Section Ungrouped.
Context {G : Type}.
Implicit Types (props : CheckboxProps) (st : State G) (force : option bool).
Local Abbreviation ungrouped := (@None (CheckboxGroupContext G)).

Lemma fieldRef_toggleValue props force st :
  truthyBool (toValueBool (indeterminate props)) = false →
  fieldRef (toggleValue ungrouped props force st) =
    if nullishBool force (negb (checked ungrouped props st))
    then getTrueValue props else getFalseValue props.
Proof. intros Hind. unfold toggleValue. by rewrite Hind. Qed.

(** X12: After [toggleValue] an ungrouped checkbox that is not indeterminate is
    checked when it was asked to be (by [force], or by being unchecked
    before) and its true value is not [NaN], and also whenever its false
    value strictly equals its true value; otherwise it is unchecked. *)
Theorem checked_after_toggleValue props force st :
  truthyBool (toValueBool (indeterminate props)) = false →
  checked ungrouped props (toggleValue ungrouped props force st) =
    nullishBool force (negb (checked ungrouped props st))
      && negb (bool_decide (getTrueValue props = JNaN))
    || strictEquals (getFalseValue props) (getTrueValue props).
Proof.
  intros Hind. unfold checked at 1. rewrite fieldRef_toggleValue by done.
  destruct (nullishBool _ _); simpl; [|done].
  rewrite strictEquals_same. case_bool_decide as Hnan; simpl; [|done].
  rewrite Hnan. unfold strictEquals. by destruct (getFalseValue props).
Qed.

(** X13: With different true and false values, two calls of [toggleValue()]
    bring an ungrouped checkbox back to the checked state it had. *)
Theorem toggleValue_twice props st :
  truthyBool (toValueBool (indeterminate props)) = false →
  getFalseValue props ≠ getTrueValue props →
  checked ungrouped props
    (toggleValue ungrouped props None (toggleValue ungrouped props None st))
  = checked ungrouped props st.
Proof.
  intros Hind Hdiff.
  destruct (decide (getTrueValue props = JNaN)) as [Hnan|Hnum].
  { assert (Hnever : ∀ st', checked ungrouped props st' = false).
    { intros st'. unfold checked. rewrite Hnan. unfold strictEquals.
      by destruct (fieldRef st'). }
    by rewrite !Hnever. }
  assert (Hflip : ∀ st', checked ungrouped props
                           (toggleValue ungrouped props None st')
                         = negb (checked ungrouped props st')).
  { intros st'. unfold checked at 1. rewrite fieldRef_toggleValue by done.
    unfold nullishBool. destruct (checked ungrouped props st'); cbn [negb].
    - destruct (strictEquals _ _) eqn:Heq; [|done].
      by apply strictEquals_eq in Heq.
    - rewrite strictEquals_same. by rewrite bool_decide_eq_false_2. }
  rewrite !Hflip. apply negb_involutive.
Qed.

(** X14: Without a group [setChecked] does nothing, whatever [force] is and
    whether or not the checkbox is indeterminate. *)
Theorem setChecked_ungrouped props force st :
  setChecked ungrouped props force st = st ∧
  checked ungrouped props (setChecked ungrouped props force st)
    = checked ungrouped props st.
Proof.
  assert (Hsame : setChecked ungrouped props force st = st).
  { unfold setChecked. by destruct (truthyBool _). }
  by rewrite Hsame.
Qed.
End Ungrouped.

Section Any.
Context {G : Type}.
Implicit Types (group : option (CheckboxGroupContext G)).
Implicit Types (props : CheckboxProps) (st : State G) (force : option bool).
Implicit Types (e : DomEvent).

(** X15: For a grouped checkbox [toggleValue] does not depend on [force]: the
    setter of the field value toggles the true value in the group without
    passing it on. *)
Theorem toggleValue_grouped_ignores_force (g : CheckboxGroupContext G)
    props force force' st :
  toggleValue (Some g) props force st = toggleValue (Some g) props force' st.
Proof.
  unfold toggleValue, setFieldValue. by destruct (truthyBool _).
Qed.

(** X16: A checkbox that is disabled or indeterminate ignores clicks and key
    presses; the blocked click is cancelled on a native input and left
    alone on a custom element. *)
Theorem handlers_blocked group props (isInput : bool) e st :
  truthyBool (toValueBool (disabled props))
    || truthyBool (toValueBool (indeterminate props)) = true →
  snd (onClick group props isInput e st) = st ∧
  snd (onKeydown group props e st) = st ∧
  fst (onClick group props isInput e st)
    = (if isInput then preventDefault (stopPropagation e) else e).
Proof.
  intros Hblocked. unfold onClick, onKeydown. rewrite Hblocked. simpl.
  split; [done|]. split; [|done].
  destruct (truthyBool (toValueBool (disabled props))); simpl; [done|].
  simpl in Hblocked. unfold toggleValue. rewrite Hblocked.
  by case_bool_decide.
Qed.

(** X17: A press of the space bar changes the state exactly as a click does and
    any other key changes nothing; the key press is cancelled exactly when
    it is the space bar on a checkbox that is not disabled. *)
Theorem onKeydown_space group props (isInput : bool) (click e : DomEvent) st :
  snd (onKeydown group props e st) =
    (if bool_decide (code e = "Space"%string)
     then snd (onClick group props isInput click st) else st) ∧
  fst (onKeydown group props e st) =
    (if bool_decide (code e = "Space"%string)
        && negb (truthyBool (toValueBool (disabled props)))
     then preventDefault e else e).
Proof.
  unfold onKeydown, onClick, toggleValue.
  destruct (truthyBool (toValueBool (disabled props))); simpl.
  - split; [by case_bool_decide|by rewrite andb_false_r].
  - destruct (truthyBool (toValueBool (indeterminate props))); simpl;
      case_bool_decide; simpl; done.
Qed.

Ltac bindings_lookup :=
  unfold createBindings; cbv iota;
  repeat first [rewrite lookup_insert_eq | rewrite lookup_insert_ne by done].

Lemma bindings_base_None (isInput : bool) lbl (k : string) :
  k ≠ "onClick"%string → k ≠ "onKeydown"%string → k ≠ "onInvalid"%string →
  k ≠ "aria-label"%string → k ≠ "aria-labelledby"%string →
  (createHandlers isInput ∪ labelEntries lbl) !! k = None.
Proof.
  intros. apply lookup_union_None.
  split; [by apply CheckboxClaims.createHandlers_other|by apply labelEntries_other].
Qed.

(** X18: The bindings of a native input use [checked], [readonly], [disabled]
    and [required]; those of a custom element use the [aria-] names with the
    same values; neither has the keys of the other, and only the native
    input gets the [onInvalid] handler. *)
Theorem createBindings_families group props inputId lbl st :
  Forall (λ names : string * string,
            createBindings group props inputId lbl true st !! names.1
              = createBindings group props inputId lbl false st !! names.2 ∧
            is_Some (createBindings group props inputId lbl true st !! names.1) ∧
            createBindings group props inputId lbl true st !! names.2 = None ∧
            createBindings group props inputId lbl false st !! names.1 = None)
    [("checked", "aria-checked"); ("readonly", "aria-readonly");
     ("disabled", "aria-disabled"); ("required", "aria-required")]%string ∧
  createBindings group props inputId lbl true st !! "onInvalid"%string
    = Some (AHandler "onInvalid") ∧
  createBindings group props inputId lbl false st !! "onInvalid"%string = None.
Proof.
  split; [|split].
  - repeat constructor; cbn [fst snd]; bindings_lookup;
      try done; try (by apply bindings_base_None).
  - bindings_lookup. apply lookup_union_Some_l.
    unfold createHandlers. cbv zeta iota. apply lookup_insert_eq.
  - bindings_lookup. apply lookup_union_None. split.
    + unfold createHandlers. cbv zeta iota.
      rewrite !lookup_insert_ne by done. apply lookup_empty.
    + by apply labelEntries_other.
Qed.

(** X19: The disabled and read-only bindings are [true] or [undefined], never
    [false]; a binding of the other family is absent. *)
Theorem createBindings_never_false group props inputId lbl (isInput : bool) st
    (k : string) :
  k ∈ ["disabled"; "aria-disabled"; "readonly"; "aria-readonly"]%string →
  createBindings group props inputId lbl isInput st !! k ≠ Some (ABool false) ∧
  (createBindings group props inputId lbl isInput st !! k = Some (ABool true) ∨
   createBindings group props inputId lbl isInput st !! k = Some AUndefined ∨
   createBindings group props inputId lbl isInput st !! k = None).
Proof.
  intros Hk.
  assert (Hcases :
    createBindings group props inputId lbl isInput st !! k = Some (ABool true) ∨
    createBindings group props inputId lbl isInput st !! k = Some AUndefined ∨
    createBindings group props inputId lbl isInput st !! k = None).
  { assert (Hor : ∀ b, Some (orUndefined b) = Some (ABool true)
                       ∨ Some (orUndefined b) = Some AUndefined
                       ∨ Some (orUndefined b) = None)
      by (intros []; auto).
    repeat (apply elem_of_cons in Hk as [->|Hk]);
      [..|by apply elem_of_nil in Hk];
      destruct isInput; bindings_lookup;
      try (right; right; by apply bindings_base_None);
      try apply Hor; destruct group; auto. }
  split; [|exact Hcases].
  destruct Hcases as [Heq|[Heq|Heq]]; by rewrite Heq.
Qed.
End Any.

Lemma checked_after_toggleValue_witness :
  truthyBool (toValueBool (indeterminate Examples.plainProps)) = false ∧
  checked None Examples.plainProps
    (toggleValue None Examples.plainProps (Some true) Examples.plainState)
  = true.
Proof.
  split; [reflexivity|].
  exact (checked_after_toggleValue Examples.plainProps (Some true)
           Examples.plainState eq_refl).
Defined.

(** With the true value [NaN] the checkbox holds [NaN] after
    [toggleValue(true)] and is still unchecked. *)
Example checked_after_toggleValue_nan :
  fieldRef (toggleValue None Examples.nanProps (Some true) Examples.plainState)
    = JNaN ∧
  checked None Examples.nanProps
    (toggleValue None Examples.nanProps (Some true) Examples.plainState)
  = false.
Proof. split; reflexivity. Qed.

Lemma toggleValue_twice_witness :
  truthyBool (toValueBool (indeterminate Examples.plainProps)) = false ∧
  getFalseValue Examples.plainProps ≠ getTrueValue Examples.plainProps ∧
  checked None Examples.plainProps
    (toggleValue None Examples.plainProps None
       (toggleValue None Examples.plainProps None Examples.plainState))
  = checked None Examples.plainProps Examples.plainState.
Proof.
  assert (Hd : getFalseValue Examples.plainProps
               ≠ getTrueValue Examples.plainProps) by discriminate.
  split; [reflexivity|]. split; [exact Hd|].
  exact (toggleValue_twice Examples.plainProps Examples.plainState eq_refl Hd).
Defined.

Lemma handlers_blocked_witness :
  truthyBool (toValueBool (disabled Examples.disabledProps))
    || truthyBool (toValueBool (indeterminate Examples.disabledProps)) = true ∧
  snd (onKeydown (@None (CheckboxGroupContext unit)) Examples.disabledProps
         Examples.spaceKey Examples.plainState) = Examples.plainState.
Proof.
  split; [reflexivity|].
  exact (proj1 (proj2 (handlers_blocked (@None (CheckboxGroupContext unit))
                         Examples.disabledProps false Examples.spaceKey
                         Examples.plainState eq_refl))).
Defined.

Lemma createBindings_never_false_witness :
  "aria-disabled"%string
    ∈ ["disabled"; "aria-disabled"; "readonly"; "aria-readonly"]%string ∧
  createBindings (@None (CheckboxGroupContext unit)) Examples.plainProps "cb"
    {| aria_label := None; aria_labelledby := None |} false Examples.plainState
    !! "aria-disabled"%string ≠ Some (ABool false).
Proof.
  assert (Hk : "aria-disabled"%string
               ∈ ["disabled"; "aria-disabled"; "readonly"; "aria-readonly"]%string)
    by (apply list_elem_of_further, list_elem_of_here).
  split; [exact Hk|].
  exact (proj1 (createBindings_never_false (@None (CheckboxGroupContext unit))
                  Examples.plainProps "cb"
                  {| aria_label := None; aria_labelledby := None |}
                  false Examples.plainState "aria-disabled" Hk)).
Defined.

End CheckboxExtras.

(** ** Checkbox groups: registration, state, props *)
Module CheckboxGroupExtras.
Import CheckboxGroup JsFacts.

Section Group.
Context {TCheckbox : Type} `{EqDecision TCheckbox}.
Implicit Types (st : State TCheckbox) (value : TCheckbox).
Implicit Types (checkbox : CheckboxRegistration).

(** X21: Registering one more checkbox keeps an unchecked group unchecked and a
    mixed group mixed, and turns a checked group into a mixed one exactly
    when it held as many values as it had checkboxes; a group without
    registered checkboxes is never mixed. *)
Theorem groupState_registration checkbox st :
  groupState (useCheckboxRegistration checkbox st) =
    match groupState st with
    | Unchecked => Unchecked
    | Mixed => Mixed
    | Checked =>
        if (length (default [] (fieldValue st)) =? length (checkboxes st))%nat
        then Mixed else Checked
    end ∧
  groupState {| fieldValue := fieldValue st; checkboxes := [];
                validityUpdates := validityUpdates st |} ≠ Mixed.
Proof.
  unfold groupState, useCheckboxRegistration. simpl.
  destruct (fieldValue st) as [fv|]; simpl; [|done].
  rewrite length_app. simpl.
  destruct (Nat.eqb_spec (length fv) 0); [done|].
  destruct (Nat.ltb_spec 0 (length fv)); [|lia]. simpl.
  split.
  - destruct (Nat.ltb_spec (length fv) (length (checkboxes st)));
      destruct (Nat.ltb_spec (length fv) (length (checkboxes st) + 1));
      destruct (Nat.eqb_spec (length fv) (length (checkboxes st)));
      done || lia.
  - by destruct (Nat.ltb_spec (length fv) 0); [lia|].
Qed.

(** X22: An unchecked group has no value: [hasValue] is false for every value. *)
Theorem groupState_unchecked_hasValue st value :
  groupState st = Unchecked → hasValue value st = false.
Proof.
  unfold groupState, hasValue. destruct (fieldValue st) as [[|v fv]|]; simpl;
    [done| |done].
  by destruct (S (length fv) <? length (checkboxes st))%nat.
Qed.

(** [toggleValue] leaves the registered checkboxes alone, and it runs
    [updateValidity], once, exactly when some registered checkbox is not
    rendered as an input element. *)
Theorem toggleValue_validity value (force : option bool) st :
  checkboxes (toggleValue value force st) = checkboxes st ∧
  validityUpdates (toggleValue value force st) =
    (if bool_decide (Exists (λ c, elemIsInput c = false) (checkboxes st))
     then S (validityUpdates st) else validityUpdates st).
Proof.
  unfold toggleValue. simpl.
  destruct (existsb _ (checkboxes st)) eqn:Hcustom; simpl.
  - split; [done|]. rewrite bool_decide_eq_true_2; [done|].
    apply existsb_exists in Hcustom as (c & Hin & Hc).
    apply Exists_exists. exists c. split; [by apply list_elem_of_In|].
    by apply negb_true_iff.
  - split; [done|]. rewrite bool_decide_eq_false_2; [done|].
    intros (c & Hin & Hc)%Exists_exists.
    assert (existsb (λ c, negb (elemIsInput c)) (checkboxes st) = true);
      [|congruence].
    apply existsb_exists. exists c. split; [by apply list_elem_of_In|].
    by rewrite Hc.
Qed.

(** X23: A checkbox whose id no registered checkbox has is gone again after its
    unmount callback, and the registrations are as they were. *)
Theorem registration_unmount checkbox st :
  Forall (λ reg, id reg ≠ id checkbox) (checkboxes st) →
  unregister checkbox (useCheckboxRegistration checkbox st) = st.
Proof.
  intros Hfresh. unfold unregister, useCheckboxRegistration. simpl.
  destruct st as [fv cbs n]. simpl in *. f_equal.
  induction Hfresh as [|reg rest Hreg _ IH]; simpl.
  - by rewrite bool_decide_eq_true_2.
  - rewrite bool_decide_eq_false_2 by done. by rewrite IH.
Qed.
End Group.

(** X24: Whatever keys the described-by and error-message helper objects
    contribute, the props of a checkbox group have the role [group] and the
    direction of the prop or, without it, of the locale; every other key
    comes from the error props first, then the described-by props, then the
    label props. *)
Theorem groupProps_spread (lbl : AriaLabelableProps)
    (describedByProps accessibleErrorProps : gmap string AttrValue)
    (dir : option RadioGroup.Direction) (direction : RadioGroup.Direction)
    (k : string) :
  groupProps lbl describedByProps accessibleErrorProps dir direction
    !! "role"%string = Some (AStr "group") ∧
  groupProps lbl describedByProps accessibleErrorProps dir direction
    !! "dir"%string
    = Some (AStr (match dir, direction with
                  | Some RadioGroup.Rtl, _ | None, RadioGroup.Rtl => "rtl"
                  | _, _ => "ltr"
                  end)) ∧
  groupProps lbl describedByProps accessibleErrorProps dir direction !! k =
    (if bool_decide (k ∈ ["role"; "dir"]%string)
     then groupProps lbl ∅ ∅ dir direction !! k
     else match accessibleErrorProps !! k with
          | Some v => Some v
          | None =>
              match describedByProps !! k with
              | Some v => Some v
              | None => labelEntries lbl !! k
              end
          end).
Proof.
  unfold groupProps. split; [|split].
  - apply lookup_insert_eq.
  - rewrite lookup_insert_ne, lookup_insert_eq by done.
    by destruct dir as [[]|], direction.
  - case_bool_decide as Hk.
    + apply elem_of_cons in Hk as [->|Hk];
        [by rewrite !lookup_insert_eq|].
      apply elem_of_cons in Hk as [->|Hk]; [|by apply elem_of_nil in Hk].
      transitivity (Some (dirOrLocale dir direction)); [|symmetry];
        (rewrite lookup_insert_ne by done; apply lookup_insert_eq).
    + rewrite !lookup_insert_ne by (intros <-; apply Hk; set_solver).
      rewrite !lookup_union.
      by destruct (accessibleErrorProps !! k), (describedByProps !! k),
        (labelEntries lbl !! k).
Qed.

Lemma groupState_unchecked_hasValue_witness :
  groupState
    (toggleValue (JStr "a") None Examples.checkboxGroup) = Unchecked ∧
  hasValue (JStr "a")
    (toggleValue (JStr "a") None Examples.checkboxGroup) = false.
Proof.
  split; [reflexivity|].
  exact (groupState_unchecked_hasValue
           (toggleValue (JStr "a") None Examples.checkboxGroup) (JStr "a")
           eq_refl).
Defined.

Lemma registration_unmount_witness :
  Forall (λ reg, id reg ≠ id {| id := "c4"; elemIsInput := false |})
    (checkboxes Examples.checkboxGroup) ∧
  unregister {| id := "c4"; elemIsInput := false |}
    (useCheckboxRegistration {| id := "c4"; elemIsInput := false |}
       Examples.checkboxGroup)
  = Examples.checkboxGroup.
Proof.
  assert (Hf : Forall (λ reg, id reg ≠ id {| id := "c4"; elemIsInput := false |})
                 (checkboxes Examples.checkboxGroup))
    by (repeat constructor; discriminate).
  split; [exact Hf|].
  exact (registration_unmount {| id := "c4"; elemIsInput := false |}
           Examples.checkboxGroup Hf).
Defined.

End CheckboxGroupExtras.

(** ** Number fields: the value predicted before an input *)
Module NumberFieldExtras.
Import NumberField.

Local Open Scope string_scope.

Lemma takeStr_app (p q : string) : takeStr (String.length p) (p ++ q) = p.
Proof.
  induction p as [|c p IH]; simpl; [by destruct q|]. by rewrite IH.
Qed.

Lemma dropStr_app (p q : string) : dropStr (String.length p) (p ++ q) = q.
Proof. induction p as [|c p IH]; simpl; [by destruct q|]. done. Qed.

Lemma takeStr_all (s : string) : takeStr (String.length s) s = s.
Proof. induction s as [|c s IH]; simpl; [done|]. by rewrite IH. Qed.

Lemma append_length (p q : string) :
  String.length (p ++ q) = (String.length p + String.length q)%nat.
Proof. induction p as [|c p IH]; simpl; [done|]. by rewrite IH. Qed.

Lemma append_assoc (p q r : string) : (p ++ q) ++ r = p ++ (q ++ r).
Proof.
  induction p as [|c p IH]; [done|].
  change (String c ((p ++ q) ++ r) = String c (p ++ q ++ r)). by rewrite IH.
Qed.

(** X26: When the text of the input is [before ++ selected ++ after] and the
    selection covers [selected], the handler validates the text
    [before ++ data ++ after]; it cancels the event and stops its
    propagation exactly when the parser rejects that text. *)
Theorem onBeforeinput_replaces_selection (isValidNumberPart : string → bool)
    (before selected after d : string) (prevented stopped : bool) :
  let event :=
    {| data := Some d;
       target :=
         {| value := before ++ selected ++ after;
            selectionStart := Some (String.length before);
            selectionEnd :=
              Some (String.length before + String.length selected)%nat |};
       defaultPrevented := prevented;
       propagationStopped := stopped |} in
  nextValue (target event) d = before ++ d ++ after ∧
  onBeforeinput isValidNumberPart event =
    if isValidNumberPart (before ++ d ++ after) then event
    else stopPropagation (preventDefault event).
Proof.
  intros event.
  assert (Hnext : nextValue (target event) d = before ++ d ++ after).
  { unfold nextValue, slice. simpl. rewrite Nat.sub_0_r, takeStr_app.
    rewrite <- (append_length before selected).
    rewrite <- (append_assoc before selected after), dropStr_app.
    rewrite (append_length (before ++ selected) after).
    replace (String.length (before ++ selected) + String.length after
             - String.length (before ++ selected))%nat
      with (String.length after) by lia.
    by rewrite takeStr_all. }
  split; [done|]. unfold onBeforeinput. simpl data. cbv iota.
  by rewrite Hnext.
Qed.

(** X27: An event without data passes untouched whatever the parser says, and
    for an input without selection bounds the handler validates the whole
    text, the data and the whole text again. *)
Theorem onBeforeinput_without_selection (isValidNumberPart : string → bool)
    (text d : string) (el : InputElement) (prevented stopped : bool) :
  let unselected :=
    {| value := text; selectionStart := None; selectionEnd := None |} in
  let event (data : option string) (el : InputElement) :=
    {| data := data; target := el; defaultPrevented := prevented;
       propagationStopped := stopped |} in
  onBeforeinput isValidNumberPart (event None el) = event None el ∧
  onBeforeinput isValidNumberPart (event (Some d) unselected) =
    if isValidNumberPart (text ++ d ++ text) then event (Some d) unselected
    else stopPropagation (preventDefault (event (Some d) unselected)).
Proof.
  intros unselected event. split; [done|].
  assert (Hnext : nextValue unselected d = text ++ d ++ text).
  { unfold nextValue, slice. simpl. by rewrite !Nat.sub_0_r, !takeStr_all. }
  unfold onBeforeinput. simpl data. cbv iota. simpl target. by rewrite Hnext.
Qed.

End NumberFieldExtras.
